(** * Browsey: request filter, extension registry, bookmark store, URL bar

    A shallow embedding of the logic of [browser.py] that sits beside the
    Qt web engine: the substring ad-block filter, the extension scan and
    its per-page injection pass, the bookmark encoding kept in the settings
    store, and [normalize_url].

    Conventions of the model:
    - a Python [str] is a [string] whose characters are code points below
      256 (the Latin-1 range); [str.lower], [str.strip] and [repr] are
      given on that range;
    - the settings backend ([QSettings]) is a finite map from key strings
      to variants; the engine (profiles, pages, views) appears only through
      the values it hands to the code and the calls the code makes to it;
    - code that can raise returns a [result]. *)

From Stdlib Require Import String Ascii List ZArith NArith Bool Lia.
From stdpp Require Import base option gmap strings.
Import ListNotations.
Open Scope string_scope.
Open Scope list_scope.

(** ** Python string operations *)

Definition code (c : ascii) : N := N_of_ascii c.

Definition in_range (lo hi : N) (c : ascii) : bool :=
  ((lo <=? code c) && (code c <=? hi))%N.

(** [str.lower] on one character: A-Z and the Latin-1 capitals
    (U+00C0-U+00DE without the multiplication sign U+00D7) move up by 32. *)
Definition lower_char (c : ascii) : ascii :=
  if in_range 65 90 c || (in_range 192 222 c && negb (code c =? 215)%N)
  then ascii_of_N (code c + 32)
  else c.

Fixpoint str_lower (s : string) : string :=
  match s with
  | EmptyString => EmptyString
  | String c s' => String (lower_char c) (str_lower s')
  end.

Fixpoint str_startswith (p s : string) : bool :=
  match p, s with
  | EmptyString, _ => true
  | String a p', String b s' => if Ascii.eqb a b then str_startswith p' s' else false
  | String _ _, EmptyString => false
  end.

(** [p in s] for two strings. *)
Fixpoint str_in (p s : string) : bool :=
  str_startswith p s ||
  match s with
  | EmptyString => false
  | String _ s' => str_in p s'
  end.

(** Specification side: [p] occurs in [s]. *)
Definition is_substring (p s : string) : Prop :=
  exists a b : string, s = a +:+ p +:+ b.

(** Specification side: [s] has no capital letter left. *)
Definition is_lowercase (s : string) : Prop := str_lower s = s.

(** [a or b] on strings: the empty string is falsy. *)
Definition str_or (a b : string) : string :=
  match a with
  | EmptyString => b
  | String _ _ => a
  end.

(** [str.isspace] on one character (code points below 256). *)
Definition is_space (c : ascii) : bool :=
  in_range 9 13 c || in_range 28 32 c || (code c =? 133)%N || (code c =? 160)%N.

Fixpoint str_lstrip (s : string) : string :=
  match s with
  | EmptyString => EmptyString
  | String c s' => if is_space c then str_lstrip s' else s
  end.

Fixpoint str_rstrip (s : string) : string :=
  match s with
  | EmptyString => EmptyString
  | String c s' =>
      match str_rstrip s' with
      | EmptyString => if is_space c then EmptyString else String c EmptyString
      | r => String c r
      end
  end.

Definition str_strip (s : string) : string := str_rstrip (str_lstrip s).

(** [s.split(sep, 1)] for a one-character separator: one piece when [sep]
    does not occur, otherwise the text before and after its first
    occurrence. *)
Fixpoint str_split1 (sep : ascii) (s : string) : list string :=
  match s with
  | EmptyString => [EmptyString]
  | String c s' =>
      if Ascii.eqb c sep then [EmptyString; s']
      else match str_split1 sep s' with
           | x :: rest => String c x :: rest
           | [] => []
           end
  end.

(** ** SimpleAdblockInterceptor *)

Inductive decision := Block | Allow.

Module SimpleAdblockInterceptor.

Record t := { patterns : list string }.

Definition default_patterns : list string :=
  [ "doubleclick.net";
    "googlesyndication";
    "adservice.google.";
    "pagead2.googlesyndication.com";
    "/ads?";
    "/adserver";
    ".ads.";
    "ads.";
    "advert";
    "adclick";
    "tracking";
    "analytics.js";
    "googletagservices";
    "adsystem" ].

(** [patterns or [...]]: [None] and the empty list are both falsy. *)
Definition patterns_or_default (patterns : option (list string)) : list string :=
  match patterns with
  | Some (p :: ps) => p :: ps
  | Some [] | None => default_patterns
  end.

Definition __init__ (patterns : option (list string)) : t :=
  {| patterns := map str_lower (patterns_or_default patterns) |}.

(** The loop of [interceptRequest] over [self.patterns], [url] already
    lowercased: the first pattern found in the URL blocks and returns. *)
Fixpoint first_match (ps : list string) (url : string) : decision :=
  match ps with
  | [] => Allow
  | p :: ps' => if str_in p url then Block else first_match ps' url
  end.

(** [request_url] is [info.requestUrl().toString()]. *)
Definition interceptRequest (self : t) (request_url : string) : decision :=
  let url := str_lower request_url in
  first_match self.(patterns) url.

End SimpleAdblockInterceptor.

(** ** The settings backend

    [QSettings] is used as a persistent dictionary from key strings to
    booleans, strings and string lists. The typed reads below stand for
    [settings.value(key, default)] on a store that holds a value of the
    expected type under the key, or none: they return the default when
    the key is absent. They return the default, too, under a key that
    holds a variant of another type, where [QSettings] hands the value
    over as it is (a string where a one-element list was written to a file
    and read back); the properties that depend on what a list key holds
    state that it holds a list. *)

Inductive qvariant :=
| QBool (b : bool)
| QString (s : string)
| QStringList (l : list string).

Definition value_bool (st : gmap string qvariant) (key : string) (default : bool) : bool :=
  match st !! key with
  | Some (QBool b) => b
  | _ => default
  end.

Definition value_list (st : gmap string qvariant) (key : string) (default : list string)
  : list string :=
  match st !! key with
  | Some (QStringList l) => l
  | _ => default
  end.

Definition setValue (key : string) (v : qvariant) (st : gmap string qvariant)
  : gmap string qvariant :=
  <[key := v]> st.

(** ** MainWindow: ad-block state, bookmarks, shutdown

    The fields of the window that the store-related methods read and
    write. Tabs and views belong to the engine: the methods that need a
    value from them take it as an argument. *)

Module MainWindow.

(** A row of the bookmark list: its text and its [Qt.UserRole] data. *)
Record QListWidgetItem := { text : string; user_role : option string }.

(** [item = QListWidgetItem(title); item.setData(Qt.UserRole, url)] *)
Definition new_item (title url : string) : QListWidgetItem :=
  {| text := title; user_role := Some url |}.

(** The row of a bookmark given as a (title, url) pair. *)
Definition item_of_pair (b : string * string) : QListWidgetItem :=
  new_item (fst b) (snd b).

Record t := {
  settings : gmap string qvariant;
  off_the_record : bool;
  adblock_enabled : bool;
  adblock_interceptor : SimpleAdblockInterceptor.t;
  bookmark_list : list QListWidgetItem
}.

Definition set_settings (st : gmap string qvariant) (self : t) : t :=
  {| settings := st;
     off_the_record := self.(off_the_record);
     adblock_enabled := self.(adblock_enabled);
     adblock_interceptor := self.(adblock_interceptor);
     bookmark_list := self.(bookmark_list) |}.

Definition set_adblock_enabled (b : bool) (self : t) : t :=
  {| settings := self.(settings);
     off_the_record := self.(off_the_record);
     adblock_enabled := b;
     adblock_interceptor := self.(adblock_interceptor);
     bookmark_list := self.(bookmark_list) |}.

(** [self.adblock_interceptor.patterns = ps] *)
Definition set_patterns (ps : list string) (self : t) : t :=
  {| settings := self.(settings);
     off_the_record := self.(off_the_record);
     adblock_enabled := self.(adblock_enabled);
     adblock_interceptor := {| SimpleAdblockInterceptor.patterns := ps |};
     bookmark_list := self.(bookmark_list) |}.

Definition set_bookmark_list (items : list QListWidgetItem) (self : t) : t :=
  {| settings := self.(settings);
     off_the_record := self.(off_the_record);
     adblock_enabled := self.(adblock_enabled);
     adblock_interceptor := self.(adblock_interceptor);
     bookmark_list := items |}.

(** Body of the loop of [_load_bookmarks]: the row made from one stored
    entry. The unpacking [title, url = entry.split("|", 1)] needs two
    pieces; [split1_two_pieces] shows the guard always provides them, so
    the last branch of the [match] is never taken. *)
Definition load_entry (entry : string) : QListWidgetItem :=
  if str_in "|" entry then
    match str_split1 "|" entry with
    | [title; url] => new_item title url
    | _ => new_item entry entry
    end
  else new_item entry entry.

Definition _load_bookmarks (self : t) : t :=
  let raw := value_list self.(settings) "bookmarks/list" [] in
  set_bookmark_list (map load_entry raw) self.

(** Body of the loop of [_save_bookmarks]: the entry made from one row. *)
Definition save_entry (item : QListWidgetItem) : string :=
  let url := match item.(user_role) with
             | Some u => str_or u EmptyString
             | None => EmptyString
             end in
  let title := str_or item.(text) url in
  title +:+ "|" +:+ url.

Definition _save_bookmarks (self : t) : t :=
  let entries := map save_entry self.(bookmark_list) in
  set_settings (setValue "bookmarks/list" (QStringList entries) self.(settings)) self.

(** The store-related part of [__init__]: the enabled flag and the saved
    patterns are read, the interceptor is built from the saved patterns
    (or from its defaults when none are saved), the bookmarks are loaded. *)
Definition __init__ (st : gmap string qvariant) (off_the_record : bool) : t :=
  let adblock_enabled := value_bool st "adblock/enabled" true in
  let saved_patterns := value_list st "adblock/patterns" [] in
  let patterns := match saved_patterns with
                  | _ :: _ => Some saved_patterns
                  | [] => None
                  end in
  _load_bookmarks
    {| settings := st;
       off_the_record := off_the_record;
       adblock_enabled := adblock_enabled;
       adblock_interceptor := SimpleAdblockInterceptor.__init__ patterns;
       bookmark_list := [] |}.

Definition toggle_adblock (self : t) : t :=
  let self := set_adblock_enabled (negb self.(adblock_enabled)) self in
  let self := set_settings
                (setValue "adblock/enabled" (QBool self.(adblock_enabled)) self.(settings))
                self in
  if negb self.(adblock_enabled) then set_patterns [] self
  else
    let saved_patterns := value_list self.(settings) "adblock/patterns" [] in
    match saved_patterns with
    | _ :: _ => set_patterns saved_patterns self
    | [] => self
    end.

(** [tab_urls] is the list of [w.url().toString()] over the open tabs.
    The field [off_the_record] stands for what
    [self.profile.isOffTheRecord()] answers; the window's flag is taken
    for it. *)
Definition save_session (self : t) (tab_urls : list string) : t :=
  if self.(off_the_record) then self
  else set_settings (setValue "session/urls" (QStringList tab_urls) self.(settings)) self.

Definition closeEvent (self : t) (tab_urls : list string) : t :=
  let self := save_session self tab_urls in
  let self := _save_bookmarks self in
  set_settings
    (setValue "adblock/patterns"
       (QStringList self.(adblock_interceptor).(SimpleAdblockInterceptor.patterns))
       self.(settings))
    self.

(** The decision the profile's interceptor takes for a request. *)
Definition request (self : t) (request_url : string) : decision :=
  SimpleAdblockInterceptor.interceptRequest self.(adblock_interceptor) request_url.

End MainWindow.

(** ** Extensions: scan of the bundle directory *)

Inductive exn := AttributeError | TypeError.

Inductive result (A : Type) :=
| Ok (a : A)
| Raise (e : exn).
Arguments Ok {A} a.
Arguments Raise {A} e.

#[global] Instance result_bind : MBind result := fun A B k r =>
  match r with
  | Ok a => k a
  | Raise e => Raise e
  end.

#[global] Instance result_ret : MRet result := fun A a => Ok a.

(** What [json.load] returns. A JSON object is kept as the list of its
    members (distinct names); numbers are integers. *)
#[local] Unset Elimination Schemes.
Inductive pyjson :=
| JNull
| JBool (b : bool)
| JNum (z : Z)
| JStr (s : string)
| JList (l : list pyjson)
| JDict (d : list (string * pyjson)).
#[local] Set Elimination Schemes.

(** A file of a bundle as the scan meets it: [exists()] is false; or
    [open]/[read] raises; or [read] returns the text. *)
Inductive file :=
| Missing
| Unreadable
| Text (s : string).

(** [manifest.json] as the scan meets it: absent; present but [open] or
    [json.load] raises; or loaded as a JSON value. *)
Inductive manifest_file :=
| NoManifest
| BadManifest
| Manifest (j : pyjson).

(** One element of [ext_dir.iterdir()]. *)
Inductive dirent :=
| File (name : string)
| Dir (name : string) (manifest_json : manifest_file) (content_js styles_css : file).

(** Keys of the [extensions] dict: the hashable values a name can be.
    [True] and [False] are the same keys as 1 and 0. *)
Inductive pykey :=
| KNone
| KNum (z : Z)
| KStr (s : string).

#[global] Instance pykey_eq_dec : EqDecision pykey.
Proof. solve_decision. Defined.

(** The dict built for one bundle: [manifest] is always set, the other two
    keys only when the file exists. *)
Record entry := {
  manifest : pyjson;
  content_js : option string;
  styles_css : option string
}.

(** ["content_js" in entry], ["styles_css" in entry] *)
Definition has_key (field : option string) : bool :=
  match field with
  | Some _ => true
  | None => false
  end.

(** [dict.get(key, default)] on the members of a JSON object. *)
Fixpoint members_get (d : list (string * pyjson)) (key : string) (default : pyjson) : pyjson :=
  match d with
  | [] => default
  | (k, v) :: d' => if String.eqb k key then v else members_get d' key default
  end.

(** [manifest.get("name", ext_name)]: only a dict has [get]. *)
Definition manifest_get (manifest : pyjson) (key : string) (default : pyjson) : result pyjson :=
  match manifest with
  | JDict d => Ok (members_get d key default)
  | _ => Raise AttributeError
  end.

(** Hashing a value used as a dict key: lists and dicts are unhashable. *)
Definition to_key (v : pyjson) : result pykey :=
  match v with
  | JNull => Ok KNone
  | JBool b => Ok (KNum (if b then 1 else 0))
  | JNum z => Ok (KNum z)
  | JStr s => Ok (KStr s)
  | JList _ | JDict _ => Raise TypeError
  end.

(** A Python dict in insertion order. *)
Fixpoint dict_get {V : Type} (d : list (pykey * V)) (k : pykey) : option V :=
  match d with
  | [] => None
  | (k', v) :: d' => if decide (k' = k) then Some v else dict_get d' k
  end.

(** [d[k] = v]: an existing key keeps its place, a new one goes last. *)
Fixpoint dict_set {V : Type} (d : list (pykey * V)) (k : pykey) (v : V) : list (pykey * V) :=
  match d with
  | [] => [(k, v)]
  | (k', v') :: d' => if decide (k' = k) then (k, v) :: d' else (k', v') :: dict_set d' k v
  end.

(** [entry[key] = f.read()] under [try], the empty string on failure;
    nothing when the file does not exist. *)
Definition read_artifact (f : file) : option string :=
  match f with
  | Missing => None
  | Unreadable => Some EmptyString
  | Text s => Some s
  end.

(** The manifest and the name of a bundle after the [manifest.json] block. *)
Definition load_manifest (name : string) (m : manifest_file) : result (pyjson * pyjson) :=
  match m with
  | NoManifest => Ok (JDict [], JStr name)
  | BadManifest =>
      ext_name ← manifest_get (JDict []) "name" (JStr name);
      Ok (JDict [], ext_name)
  | Manifest j =>
      ext_name ← manifest_get j "name" (JStr name);
      Ok (j, ext_name)
  end.

(** Body of the loop of [_load_extensions]. *)
Definition load_bundle (extensions : list (pykey * entry)) (sub : dirent)
  : result (list (pykey * entry)) :=
  match sub with
  | File _ => Ok extensions
  | Dir name manifest_json content_js_file styles_css_file =>
      '(manifest, ext_name) ← load_manifest name manifest_json;
      let e := {| manifest := manifest;
                  content_js := read_artifact content_js_file;
                  styles_css := read_artifact styles_css_file |} in
      if has_key e.(content_js) || has_key e.(styles_css) then
        k ← to_key ext_name;
        Ok (dict_set extensions k e)
      else Ok extensions
  end.

Fixpoint scan_from (extensions : list (pykey * entry)) (listing : list dirent)
  : result (list (pykey * entry)) :=
  match listing with
  | [] => Ok extensions
  | sub :: rest =>
      extensions' ← load_bundle extensions sub;
      scan_from extensions' rest
  end.

(** [listing] is [ext_dir.iterdir()] in the order the file system gives. *)
Definition _load_extensions (listing : list dirent) : result (list (pykey * entry)) :=
  scan_from [] listing.

(** Specification side: the key under which the scan stores a directory
    entry, when it stores it. *)
Definition stored_key (sub : dirent) : option pykey :=
  match sub with
  | File _ => None
  | Dir name manifest_json content_js_file styles_css_file =>
      if has_key (read_artifact content_js_file) || has_key (read_artifact styles_css_file)
      then match load_manifest name manifest_json with
           | Ok (_, ext_name) =>
               match to_key ext_name with
               | Ok k => Some k
               | Raise _ => None
               end
           | Raise _ => None
           end
      else None
  end.


(** ** Extensions: injection into a loaded page *)

Definition backslash : ascii := ascii_of_N 92.
Definition double_quote : ascii := ascii_of_N 34.
Definition single_quote : ascii := ascii_of_N 39.

Definition hex_digit (upper : bool) (n : N) : ascii :=
  if (n <? 10)%N then ascii_of_N (48 + n)
  else ascii_of_N ((if upper then 55 else 87) + n).

Definition hex2 (upper : bool) (n : N) : string :=
  String (hex_digit upper (n / 16)) (String (hex_digit upper (n mod 16)) EmptyString).

(** [str.isprintable] on one character: the controls, the no-break space
    and the soft hyphen are not printable. *)
Definition is_printable (c : ascii) : bool :=
  negb (in_range 0 31 c || in_range 127 160 c || (code c =? 173)%N).

(** One character of [repr(s)] inside the quotes [quote]. *)
Definition repr_char (quote c : ascii) : string :=
  if Ascii.eqb c quote || Ascii.eqb c backslash then String backslash (String c EmptyString)
  else if (code c =? 9)%N then String backslash "t"
  else if (code c =? 10)%N then String backslash "n"
  else if (code c =? 13)%N then String backslash "r"
  else if is_printable c then String c EmptyString
  else String backslash ("x" +:+ hex2 false (code c)).

Fixpoint repr_body (quote : ascii) (s : string) : string :=
  match s with
  | EmptyString => EmptyString
  | String c s' => repr_char quote c +:+ repr_body quote s'
  end.

(** [repr(s)], what [%r] formats: single quotes, unless the text has a
    single quote and no double quote. *)
Definition str_repr (s : string) : string :=
  let quote :=
    if str_in (String single_quote EmptyString) s
       && negb (str_in (String double_quote EmptyString) s)
    then double_quote else single_quote in
  String quote (repr_body quote s +:+ String quote EmptyString).

(** Specification side: the value of a JavaScript string literal, for the
    literals [repr] writes (escapes for the backslash, the quotes, tab,
    line feed, carriage return and two-digit hexadecimal codes; no raw
    line terminator). *)
Definition hex_val (c : ascii) : option N :=
  if in_range 48 57 c then Some (code c - 48)%N
  else if in_range 97 102 c then Some (code c - 87)%N
  else if in_range 65 70 c then Some (code c - 55)%N
  else None.

Fixpoint js_chars (quote : ascii) (s : string) : option string :=
  match s with
  | EmptyString => None
  | String c s' =>
      if Ascii.eqb c quote then
        match s' with
        | EmptyString => Some EmptyString
        | String _ _ => None
        end
      else if Ascii.eqb c backslash then
        match s' with
        | EmptyString => None
        | String esc s'' =>
            if Ascii.eqb esc "x" then
              match s'' with
              | String h1 (String h2 s3) =>
                  match hex_val h1, hex_val h2 with
                  | Some a, Some b => String (ascii_of_N (16 * a + b)) <$> js_chars quote s3
                  | _, _ => None
                  end
              | _ => None
              end
            else if Ascii.eqb esc "t" then String (ascii_of_N 9) <$> js_chars quote s''
            else if Ascii.eqb esc "n" then String (ascii_of_N 10) <$> js_chars quote s''
            else if Ascii.eqb esc "r" then String (ascii_of_N 13) <$> js_chars quote s''
            else if Ascii.eqb esc backslash || Ascii.eqb esc single_quote
                    || Ascii.eqb esc double_quote
            then String esc <$> js_chars quote s''
            else None
        end
      else if (code c =? 10)%N || (code c =? 13)%N then None
      else String c <$> js_chars quote s'
  end.

Definition js_string_value (literal : string) : option string :=
  match literal with
  | EmptyString => None
  | String quote body =>
      if Ascii.eqb quote single_quote || Ascii.eqb quote double_quote
      then js_chars quote body
      else None
  end.

(** The script built around a stylesheet. *)
Definition style_script (css : string) : string :=
  "(function(){"
  +:+ "var style=document.createElement('style');"
  +:+ "style.textContent=" +:+ str_repr css +:+ ";"
  +:+ "document.head.appendChild(style);"
  +:+ "})();".

(** First loop of [_inject_extensions]: the [runJavaScript] calls for the
    stylesheets, over [self.extensions.values()]. *)
Fixpoint inject_css (exts : list (pykey * entry)) : list string :=
  match exts with
  | [] => []
  | (_, ext) :: rest =>
      match ext.(styles_css) with
      | Some (String c css') => style_script (String c css') :: inject_css rest
      | Some EmptyString | None => inject_css rest
      end
  end.

(** Second loop: the calls for the content scripts. *)
Fixpoint inject_js (exts : list (pykey * entry)) : list string :=
  match exts with
  | [] => []
  | (_, ext) :: rest =>
      match ext.(content_js) with
      | Some (String c js') => String c js' :: inject_js rest
      | Some EmptyString | None => inject_js rest
      end
  end.

(** The scripts given to [view.page().runJavaScript], in call order. *)
Definition _inject_extensions (extensions : list (pykey * entry)) : list string :=
  inject_css extensions ++ inject_js extensions.

(** ** normalize_url *)

Definition HOME_URL : string := "https://duckduckgo.com/".

(** A [QUrl] is kept as the string it was constructed from. *)
Inductive QUrl := QUrl_ (text : string).

(** UTF-8 bytes of a code point below 256. *)
Definition utf8 (c : ascii) : list N :=
  if (code c <? 128)%N then [code c]
  else [192 + code c / 64; 128 + code c mod 64]%N.

(** The bytes [QUrl.toPercentEncoding] leaves as they are:
    ALPHA / DIGIT / "-" / "." / "_" / "~". *)
Definition unreserved (b : N) : bool :=
  ((65 <=? b) && (b <=? 90) || (97 <=? b) && (b <=? 122) || (48 <=? b) && (b <=? 57)
   || (b =? 45) || (b =? 46) || (b =? 95) || (b =? 126))%N.

Definition percent_byte (b : N) : string :=
  if unreserved b then String (ascii_of_N b) EmptyString
  else "%" +:+ hex2 true b.

Fixpoint percent_bytes (bs : list N) : string :=
  match bs with
  | [] => EmptyString
  | b :: bs' => percent_byte b +:+ percent_bytes bs'
  end.

(** [QUrl.toPercentEncoding(text).data().decode()] *)
Fixpoint toPercentEncoding (text : string) : string :=
  match text with
  | EmptyString => EmptyString
  | String c text' => percent_bytes (utf8 c) +:+ toPercentEncoding text'
  end.

(** Specification side: every character is whitespace. *)
Fixpoint all_space (s : string) : bool :=
  match s with
  | EmptyString => true
  | String c s' => is_space c && all_space s'
  end.

(** Specification side: the search URL for a query. *)
Definition search_url (query : string) : QUrl :=
  QUrl_ ("https://duckduckgo.com/?q=" +:+ toPercentEncoding query).

Definition normalize_url (text : string) : QUrl :=
  let text := str_strip text in
  match text with
  | EmptyString => QUrl_ HOME_URL
  | String _ _ =>
      if negb (str_in " " text) && str_in "." text && negb (str_in "://" text)
      then QUrl_ ("https://" +:+ text)
      else if negb (str_in "://" text) && (str_in " " text || negb (str_in "." text))
      then QUrl_ ("https://duckduckgo.com/?q=" +:+ toPercentEncoding text)
      else QUrl_ text
  end.

(** ** Further methods of the window

    Bookmark mutations, the page-source dialog, the tab widget with the
    session, and the user-agent dialog. *)

Definition value_str (st : gmap string qvariant) (key : string) (default : string) : string :=
  match st !! key with
  | Some (QString s) => s
  | _ => default
  end.

(** [add_bookmark_for_current]: [view] is what [current_view()] gives, as
    the pair of [view.url().toString()] and [view.title()]. *)
Definition add_bookmark_for_current (self : MainWindow.t) (view : option (string * string))
  : MainWindow.t :=
  match view with
  | None => self
  | Some (url, view_title) =>
      let title := str_or view_title url in
      let item := MainWindow.new_item title url in
      MainWindow._save_bookmarks
        (MainWindow.set_bookmark_list (self.(MainWindow.bookmark_list) ++ [item]) self)
  end.

(** The [remove] branch of [_bookmark_context_menu]: the row under the
    pointer is taken out of the list and the list is saved. *)
Definition remove_bookmark (self : MainWindow.t) (row : nat) : MainWindow.t :=
  MainWindow._save_bookmarks
    (MainWindow.set_bookmark_list (delete row self.(MainWindow.bookmark_list)) self).

(** [html[:n]] *)
Fixpoint str_take (n : nat) (s : string) : string :=
  match n, s with
  | O, _ => EmptyString
  | S _, EmptyString => EmptyString
  | S n', String c s' => String c (str_take n' s')
  end.

Definition SOURCE_LIMIT : nat := N.to_nat 20000.

(** The line feed, then three dots, a line feed and [[truncated]]. *)
Definition truncated_mark : string :=
  String (ascii_of_N 10) ("..." +:+ String (ascii_of_N 10) "[truncated]").

(** The text [view_source] puts in its dialog for the page's HTML. *)
Definition show_html_text (html : string) : string :=
  if Nat.ltb (String.length html) SOURCE_LIMIT then html
  else str_take SOURCE_LIMIT html +:+ truncated_mark.

(** What the code needs from the engine for tabs and the user agent: the
    view a new tab gets for a URL ([BrowserView(...)] and [setUrl]), the
    URL a view reports ([url().toString()]), and whether
    [profile.setHttpUserAgent] returns for a string rather than raising. *)
Class Engine (V : Type) := {
  new_view : string -> V;
  view_url : V -> string;
  sets_user_agent : string -> bool
}.

(** An engine whose views are the URLs they were opened with. *)
#[global] Instance url_engine : Engine string :=
  {| new_view := fun url => url; view_url := fun v => v; sets_user_agent := fun _ => true |}.

Module Browser.

Section WithEngine.

Context {V : Type} `{Engine V}.

(** The window with its tab widget, its catalog and the user agent last
    given to the profile ([None]: the engine's own). *)
Record t := {
  window : MainWindow.t;
  tabs : list V;
  extensions : list (pykey * entry);
  user_agent : option string
}.

Definition set_window (w : MainWindow.t) (self : t) : t :=
  {| window := w; tabs := self.(tabs);
     extensions := self.(extensions); user_agent := self.(user_agent) |}.

Definition set_tabs (ts : list V) (self : t) : t :=
  {| window := self.(window); tabs := ts;
     extensions := self.(extensions); user_agent := self.(user_agent) |}.

Definition set_user_agent_field (ua : option string) (self : t) : t :=
  {| window := self.(window); tabs := self.(tabs);
     extensions := self.(extensions); user_agent := ua |}.

Definition set_settings (st : gmap string qvariant) (self : t) : t :=
  set_window (MainWindow.set_settings st self.(window)) self.

(** [open_new_tab]: the new view goes last in the tab widget. *)
Definition open_new_tab (self : t) (url : string) : t :=
  set_tabs (self.(tabs) ++ [new_view url]) self.

(** [QTabWidget.removeTab]: an index outside the tabs removes nothing. *)
Definition removeTab (index : Z) (ts : list V) : list V :=
  if ((0 <=? index) && (index <? Z.of_nat (length ts)))%Z
  then delete (Z.to_nat index) ts
  else ts.

Definition save_session (self : t) : t :=
  set_window (MainWindow.save_session self.(window) (map view_url self.(tabs))) self.

Definition close_tab (self : t) (index : Z) : t :=
  let self := if Nat.leb (length self.(tabs)) 1 then open_new_tab self HOME_URL else self in
  let self := set_tabs (removeTab index self.(tabs)) self in
  save_session self.

(** The user-agent block of [__init__]: a saved agent is given to the
    profile; a refusal of the engine is passed over. *)
Definition load_user_agent (st : gmap string qvariant) : option string :=
  match value_str st "browser/user_agent" EmptyString with
  | EmptyString => None
  | String c ua' =>
      if sets_user_agent (String c ua') then Some (String c ua') else None
  end.

(** [set_user_agent]: [text] and [ok] are what the input dialog returns.
    The result carries the status-bar message, when one is shown. *)
Definition set_user_agent (self : t) (text : string) (ok : bool) : t * option string :=
  if ok then
    match text with
    | String _ _ =>
        if sets_user_agent text then
          (set_settings (setValue "browser/user_agent" (QString text)
                                  self.(window).(MainWindow.settings))
                        (set_user_agent_field (Some text) self),
           Some "Custom User-Agent saved")
        else (self, Some "Failed to set User-Agent (Qt limitation)")
    | EmptyString =>
        let self := set_settings (setValue "browser/user_agent" (QString EmptyString)
                                           self.(window).(MainWindow.settings)) self in
        let self := if sets_user_agent EmptyString
                    then set_user_agent_field None self else self in
        (self, Some "User-Agent reset to default")
    end
  else (self, None).

End WithEngine.

Arguments t V : clear implicits.

End Browser.

(** A window of that engine with two tabs, for examples. *)
Definition two_tabs : Browser.t string :=
  {| Browser.window := MainWindow.__init__ ∅ false;
     Browser.tabs := ["https://duckduckgo.com/"; "https://example.com/"];
     Browser.extensions := [];
     Browser.user_agent := None |}.

(** ** Specification side of the scan *)

(** What a directory entry stores when it is scanned on its own. *)
Definition stored (sub : dirent) : option (pykey * entry) :=
  match load_bundle [] sub with
  | Ok [(k, e)] => Some (k, e)
  | _ => None
  end.

(** The entry of the last element of a listing stored under [k]. *)
Fixpoint last_stored (k : pykey) (listing : list dirent) : option entry :=
  match listing with
  | [] => None
  | sub :: rest =>
      match last_stored k rest with
      | Some e => Some e
      | None =>
          match stored sub with
          | Some (k', e) => if decide (k' = k) then Some e else None
          | None => None
          end
      end
  end.

(** Whether a JSON value is an object. *)
Definition is_object (j : pyjson) : bool :=
  match j with
  | JDict _ => true
  | _ => false
  end.

(** The characters a percent-encoded text is made of. *)
Definition url_safe (c : ascii) : bool :=
  unreserved (code c) || Ascii.eqb c "%".

Fixpoint str_forall (f : ascii -> bool) (s : string) : bool :=
  match s with
  | EmptyString => true
  | String c s' => f c && str_forall f s'
  end.

(** A character that does not end a line. *)
Definition not_line_break (c : ascii) : bool :=
  negb ((code c =? 10)%N || (code c =? 13)%N).

(** * Properties *)

(** ** Strings *)

Section StringFacts.

Lemma append_String (c : ascii) (s x : string) :
  String c s +:+ x = String c (s +:+ x).
Proof. reflexivity. Qed.

Lemma append_Empty (x : string) : EmptyString +:+ x = x.
Proof. reflexivity. Qed.

Lemma str_startswith_spec (p s : string) :
  str_startswith p s = true <-> exists b, s = p +:+ b.
Proof.
  revert s. induction p as [|a p IH]; intros s; simpl.
  - split; [intros _; now exists s | reflexivity].
  - destruct s as [|b s]; simpl.
    + split; [discriminate | intros [x Hx]; discriminate].
    + destruct (Ascii.eqb_spec a b) as [->|Hne].
      * rewrite IH. split; intros [x Hx]; exists x;
          rewrite append_String in *; congruence.
      * split; [discriminate | intros [x Hx]; rewrite append_String in Hx; congruence].
Qed.

Lemma str_in_unfold (p s : string) :
  str_in p s =
  str_startswith p s ||
  match s with EmptyString => false | String _ s' => str_in p s' end.
Proof. destruct s; reflexivity. Qed.

Lemma str_in_spec (p s : string) : str_in p s = true <-> is_substring p s.
Proof.
  unfold is_substring. split.
  - induction s as [|c s IH]; rewrite str_in_unfold, orb_true_iff.
    + intros [H|H]; [|discriminate].
      apply str_startswith_spec in H as [b Hb]. now exists EmptyString, b.
    + intros [H|H].
      * apply str_startswith_spec in H as [b Hb]. now exists EmptyString, b.
      * destruct (IH H) as (a & b & ->). now exists (String c a), b.
  - intros (a & b & ->). induction a as [|c a IH]; rewrite str_in_unfold, orb_true_iff.
    + left. apply str_startswith_spec. now exists b.
    + right. exact IH.
Qed.

Lemma str_in_empty (s : string) : str_in EmptyString s = true.
Proof. now rewrite str_in_unfold. Qed.

Lemma lower_char_idem (c : ascii) : lower_char (lower_char c) = lower_char c.
Proof. destruct c as [[] [] [] [] [] [] [] []]; reflexivity. Qed.

Lemma str_lower_idem (s : string) : is_lowercase (str_lower s).
Proof.
  unfold is_lowercase. induction s as [|c s IH]; simpl; [reflexivity|].
  now rewrite lower_char_idem, IH.
Qed.

End StringFacts.

(** ** The request filter *)

Section Filter.

Import SimpleAdblockInterceptor.

Lemma first_match_spec (ps : list string) (url : string) :
  first_match ps url = Block <-> exists p, In p ps /\ str_in p url = true.
Proof.
  induction ps as [|p ps IH]; simpl.
  - split; [discriminate | intros (p & [] & _)].
  - destruct (str_in p url) eqn:E.
    + split; [intros _; exists p; auto | reflexivity].
    + rewrite IH. split.
      * intros (q & Hq & Hin). exists q; auto.
      * intros (q & [<-|Hq] & Hin); [congruence | exists q; auto].
Qed.

(** What [interceptRequest] computes for the list the filter holds: the
    held patterns are compared as they are with the lowercased URL. *)
Lemma interceptRequest_held (self : t) (u : string) :
  interceptRequest self u = Block <->
  exists p, In p self.(patterns) /\ is_substring p (str_lower u).
Proof.
  unfold interceptRequest. rewrite first_match_spec.
  split; intros (p & Hin & H); exists p; split; auto; now apply str_in_spec.
Qed.

Lemma interceptRequest_empty (u : string) :
  interceptRequest {| patterns := [] |} u = Allow.
Proof. reflexivity. Qed.

(** A filter built by the constructor holds lowercase patterns only. *)
Lemma init_patterns_lowercase (ps : option (list string)) :
  Forall is_lowercase (__init__ ps).(patterns).
Proof.
  unfold __init__; simpl. apply List.Forall_forall. intros p Hin.
  apply in_map_iff in Hin as (q & <- & _). apply str_lower_idem.
Qed.

(** For a filter built by the constructor the decision is the one of the
    specification, over the configured patterns (the built-in list when
    none is configured). *)
Lemma interceptRequest_init (ps : option (list string)) (u : string) :
  interceptRequest (__init__ ps) u = Block <->
  exists p, In p (patterns_or_default ps) /\ is_substring (str_lower p) (str_lower u).
Proof.
  rewrite interceptRequest_held. unfold __init__; simpl. split.
  - intros (p & Hin & H). apply in_map_iff in Hin as (q & <- & Hq). eauto.
  - intros (q & Hq & H). exists (str_lower q). split; [now apply in_map | exact H].
Qed.

(** Whenever the held patterns are lowercase, the decision is the one of
    the specification over the held list. *)
Lemma interceptRequest_lowercase (self : t) (u : string) :
  Forall is_lowercase self.(patterns) ->
  (interceptRequest self u = Block <->
   exists p, In p self.(patterns) /\ is_substring (str_lower p) (str_lower u)).
Proof.
  intros Hlow. rewrite interceptRequest_held.
  rewrite List.Forall_forall in Hlow. unfold is_lowercase in Hlow.
  split; intros (p & Hin & H); exists p; split; auto.
  - now rewrite (Hlow p Hin).
  - now rewrite <- (Hlow p Hin).
Qed.

End Filter.

(** ** Toggling the filter *)

Section Toggle.

Import MainWindow.
Abbreviation held w := (SimpleAdblockInterceptor.patterns w.(adblock_interceptor)).

Lemma value_list_other_key (st : gmap string qvariant) (k k' : string) (v : qvariant)
      (d : list string) :
  k <> k' -> value_list (setValue k v st) k' d = value_list st k' d.
Proof. intros Hne. unfold value_list, setValue. now rewrite lookup_insert_ne. Qed.

Lemma value_list_same_key (st : gmap string qvariant) (k : string) (l d : list string) :
  value_list (setValue k (QStringList l) st) k d = l.
Proof. unfold value_list, setValue. now rewrite lookup_insert_eq. Qed.

(** Disabling empties the held list, so every request is allowed. *)
Lemma toggle_off (w : t) :
  w.(adblock_enabled) = true ->
  (toggle_adblock w).(adblock_enabled) = false /\
  held (toggle_adblock w) = [] /\
  forall u, request (toggle_adblock w) u = Allow.
Proof.
  intros Hen. unfold toggle_adblock; simpl. rewrite Hen; simpl. auto.
Qed.

(** Enabling installs the list saved in the store, as it is saved. *)
Lemma toggle_on_saved (w : t) (p : string) (ps : list string) :
  w.(adblock_enabled) = false ->
  value_list w.(settings) "adblock/patterns" [] = p :: ps ->
  (toggle_adblock w).(adblock_enabled) = true /\ held (toggle_adblock w) = p :: ps.
Proof.
  intros Hen Hsaved. unfold toggle_adblock; simpl. rewrite Hen; simpl.
  rewrite value_list_other_key by discriminate. now rewrite Hsaved.
Qed.

(** Enabling with nothing saved leaves the held list as it is. *)
Lemma toggle_on_nothing_saved (w : t) :
  w.(adblock_enabled) = false ->
  value_list w.(settings) "adblock/patterns" [] = [] ->
  (toggle_adblock w).(adblock_enabled) = true /\ held (toggle_adblock w) = held w.
Proof.
  intros Hen Hsaved. unfold toggle_adblock; simpl. rewrite Hen; simpl.
  rewrite value_list_other_key by discriminate. now rewrite Hsaved.
Qed.

(** The only key a toggle writes is the enabled flag. *)
Lemma toggle_settings (w : t) :
  (toggle_adblock w).(settings) =
  setValue "adblock/enabled" (QBool (negb w.(adblock_enabled))) w.(settings).
Proof.
  unfold toggle_adblock; simpl.
  destruct (negb (negb (adblock_enabled w))); simpl; [reflexivity|].
  now destruct (value_list _ "adblock/patterns" []).
Qed.

Lemma toggle_keeps_saved_patterns (w : t) :
  value_list (toggle_adblock w).(settings) "adblock/patterns" [] =
  value_list w.(settings) "adblock/patterns" [].
Proof. rewrite toggle_settings. now rewrite value_list_other_key by discriminate. Qed.

(** Off and on again: the held list becomes the saved list when there is
    one, and stays empty when there is none. *)
Lemma toggle_twice (w : t) :
  w.(adblock_enabled) = true ->
  held (toggle_adblock (toggle_adblock w)) =
  value_list w.(settings) "adblock/patterns" [].
Proof.
  intros Hen. destruct (toggle_off w Hen) as (Hoff & Hnil & _).
  pose proof (toggle_keeps_saved_patterns w) as Hkeep.
  destruct (value_list (settings w) "adblock/patterns" []) as [|p ps] eqn:E.
  - destruct (toggle_on_nothing_saved _ Hoff Hkeep) as [_ ->]. exact Hnil.
  - now destruct (toggle_on_saved _ p ps Hoff Hkeep) as [_ ->].
Qed.

(** At start-up the held list is the lowercased saved list, or the
    built-in list when nothing is saved. *)
Lemma init_held (st : gmap string qvariant) (otr : bool) :
  held (MainWindow.__init__ st otr) =
  match value_list st "adblock/patterns" [] with
  | [] => SimpleAdblockInterceptor.default_patterns
  | p :: ps => map str_lower (p :: ps)
  end.
Proof.
  unfold MainWindow.__init__; simpl.
  destruct (value_list st "adblock/patterns" []); reflexivity.
Qed.

Lemma init_settings (st : gmap string qvariant) (otr : bool) :
  (MainWindow.__init__ st otr).(settings) = st.
Proof. reflexivity. Qed.

Lemma init_enabled (st : gmap string qvariant) (otr : bool) :
  (MainWindow.__init__ st otr).(adblock_enabled) = value_bool st "adblock/enabled" true.
Proof. reflexivity. Qed.

(** Where toggling twice does restore the list: a saved, non-empty list
    of lowercase patterns. *)
Lemma toggle_twice_restores_saved_lowercase
      (st : gmap string qvariant) (otr : bool) (p : string) (ps : list string) :
  value_bool st "adblock/enabled" true = true ->
  value_list st "adblock/patterns" [] = p :: ps ->
  Forall is_lowercase (p :: ps) ->
  let w := MainWindow.__init__ st otr in
  held (toggle_adblock (toggle_adblock w)) = held w.
Proof.
  intros Hen Hsaved Hlow w. subst w.
  rewrite toggle_twice by (now rewrite init_enabled).
  rewrite init_held, init_settings, Hsaved.
  symmetry. clear Hsaved. induction Hlow as [|q qs Hq _ IH]; simpl; [reflexivity|].
  now rewrite Hq, IH.
Qed.

End Toggle.

Section ToggleRuns.

Import MainWindow.
Abbreviation held_by w := (SimpleAdblockInterceptor.patterns w.(adblock_interceptor)).

(** With nothing saved, off and on again ends with an empty list,
    whatever was held before. *)
Lemma toggle_twice_nothing_saved (st : gmap string qvariant) (otr : bool) :
  value_bool st "adblock/enabled" true = true ->
  value_list st "adblock/patterns" [] = [] ->
  let w := MainWindow.__init__ st otr in
  held_by w = SimpleAdblockInterceptor.default_patterns /\
  held_by (toggle_adblock (toggle_adblock w)) = [].
Proof.
  intros Hen Hsaved w. subst w. split.
  - now rewrite init_held, Hsaved.
  - rewrite toggle_twice by (now rewrite init_enabled).
    now rewrite init_settings.
Qed.

(** C1 (the code departs from the claim). The claim: the decision is
    block exactly when some pattern, lowercased, occurs in the lowercased
    URL, and it is allow for every URL while the filter is disabled.
    Two runs of the program where this fails:
    - the filter is disabled in a first session and the window is closed;
      the next session starts disabled, yet the constructor has installed
      the built-in patterns and a matching request is blocked;
    - a saved pattern with capitals is installed as it is by re-enabling,
      and a request in which the lowercased pattern occurs is allowed,
      although the same request was blocked before the two toggles. *)
Theorem filter_decision_departs_from_spec :
  (let first_session := toggle_adblock (MainWindow.__init__ ∅ false) in
   let w := MainWindow.__init__ (closeEvent first_session []).(settings) false in
   first_session.(adblock_enabled) = false /\
   w.(adblock_enabled) = false /\
   request w "https://doubleclick.net/ad.js" = Block)
  /\
  (let st := <["adblock/patterns" := QStringList ["DoubleClick.net"]]> ∅ in
   let w := MainWindow.__init__ st false in
   let w' := toggle_adblock (toggle_adblock w) in
   request w "https://doubleclick.net/ad.js" = Block /\
   w'.(adblock_enabled) = true /\
   In "DoubleClick.net" (held_by w') /\
   is_substring (str_lower "DoubleClick.net") (str_lower "https://doubleclick.net/ad.js") /\
   request w' "https://doubleclick.net/ad.js" = Allow).
Proof.
  split.
  - vm_compute. auto.
  - cbv zeta. repeat split; try (vm_compute; auto; fail).
    apply str_in_spec. vm_compute. reflexivity.
Qed.

(** C2 (the code departs from the claim). The claim: toggling off and on
    again leaves the active list equal to the one before, the built-in
    list when nothing was ever saved. On a store that never held
    patterns the window starts with the built-in list; after the two
    toggles the filter is enabled and its list is empty, so a request
    blocked before is allowed after. *)
Theorem toggle_twice_fresh_store_empties_filter :
  let w := MainWindow.__init__ ∅ false in
  let w' := toggle_adblock (toggle_adblock w) in
  w.(adblock_enabled) = true /\
  held_by w = SimpleAdblockInterceptor.default_patterns /\
  w'.(adblock_enabled) = true /\
  held_by w' = [] /\
  request w "https://doubleclick.net/ad.js" = Block /\
  request w' "https://doubleclick.net/ad.js" = Allow.
Proof. vm_compute. repeat split. Qed.

(** C3 (the code departs from the claim). The claim: every held pattern
    is lowercase on every path that sets patterns. The constructor
    lowercases the saved list; re-enabling assigns the saved list as it
    is, so a saved pattern with capitals is held with its capitals. *)
Theorem toggle_installs_saved_patterns_unlowered :
  let st := <["adblock/patterns" := QStringList ["DoubleClick.net"]]> ∅ in
  let w := MainWindow.__init__ st false in
  let w' := toggle_adblock (toggle_adblock w) in
  Forall is_lowercase (held_by w) /\
  held_by w = ["doubleclick.net"] /\
  held_by w' = ["DoubleClick.net"] /\
  ~ Forall is_lowercase (held_by w').
Proof.
  cbv zeta. split; [apply init_patterns_lowercase|].
  split; [vm_compute; reflexivity|].
  assert (H : held_by (toggle_adblock (toggle_adblock
                (MainWindow.__init__ (<["adblock/patterns" :=
                   QStringList ["DoubleClick.net"]]> ∅) false))) = ["DoubleClick.net"])
    by (vm_compute; reflexivity).
  split; [exact H|]. rewrite H. intros Hall.
  apply Forall_inv in Hall. unfold is_lowercase in Hall. vm_compute in Hall.
  discriminate.
Qed.

End ToggleRuns.

(** ** Bookmarks *)

Section Bookmarks.

Import MainWindow.

Lemma str_in_char (c a : ascii) (s : string) :
  str_in (String c EmptyString) (String a s) =
  Ascii.eqb c a || str_in (String c EmptyString) s.
Proof. simpl. now destruct (Ascii.eqb c a). Qed.

Lemma str_in_char_app (c : ascii) (x y : string) :
  str_in (String c EmptyString) (x +:+ y) =
  str_in (String c EmptyString) x || str_in (String c EmptyString) y.
Proof.
  induction x as [|a x IH].
  - rewrite append_Empty. reflexivity.
  - rewrite append_String, !str_in_char, IH. now rewrite orb_assoc.
Qed.

(** Without the separator [split] gives the text back as its one piece. *)
Lemma split1_absent (c : ascii) (s : string) :
  str_in (String c EmptyString) s = false -> str_split1 c s = [s].
Proof.
  induction s as [|a s IH]; [reflexivity|].
  rewrite str_in_char, orb_false_iff. intros [Hne Hs]. simpl.
  rewrite Ascii.eqb_sym, Hne. now rewrite (IH Hs).
Qed.

(** The first separator splits: what precedes it has none. *)
Lemma split1_first (c : ascii) (t u : string) :
  str_in (String c EmptyString) t = false ->
  str_split1 c (t +:+ String c u) = [t; u].
Proof.
  induction t as [|a t IH].
  - intros _. rewrite append_Empty. simpl. now rewrite Ascii.eqb_refl.
  - rewrite str_in_char, orb_false_iff. intros [Hne Ht].
    rewrite append_String. simpl. rewrite Ascii.eqb_sym, Hne. now rewrite (IH Ht).
Qed.

(** With the separator present [split] gives exactly two pieces, so the
    unpacking in [_load_bookmarks] cannot fail. *)
Lemma split1_two_pieces (c : ascii) (s : string) :
  str_in (String c EmptyString) s = true ->
  exists t u, str_split1 c s = [t; u] /\ s = t +:+ String c u /\
              str_in (String c EmptyString) t = false.
Proof.
  induction s as [|a s IH]; [discriminate|].
  rewrite str_in_char. simpl. rewrite (Ascii.eqb_sym a c).
  destruct (Ascii.eqb_spec c a) as [->|Hne]; simpl.
  - intros _. exists EmptyString, s. auto.
  - intros H. destruct (IH H) as (t & u & -> & -> & Ht).
    exists (String a t), u. repeat split.
    rewrite str_in_char, Ht. now destruct (Ascii.eqb_spec c a).
Qed.

Lemma str_or_empty_r (u : string) : str_or u EmptyString = u.
Proof. now destruct u. Qed.

(** What [_save_bookmarks] writes for a row with text [t] and data [u]. *)
Lemma save_entry_new_item (t u : string) :
  save_entry (new_item t u) = str_or t u +:+ "|" +:+ u.
Proof. unfold save_entry, new_item; simpl. now rewrite str_or_empty_r. Qed.

(** Decoding an entry [t|u] whose [t] has no separator. *)
Lemma load_entry_joined (t u : string) :
  str_in "|" t = false -> load_entry (t +:+ "|" +:+ u) = new_item t u.
Proof.
  intros Ht. unfold load_entry.
  change (t +:+ "|" +:+ u) with (t +:+ String "|" u).
  rewrite str_in_char_app, str_in_char, Ascii.eqb_refl, orb_true_r.
  now rewrite split1_first.
Qed.

(** One row through encode and decode. An empty title is replaced by the
    URL when the entry is written. *)
Lemma load_save_entry (t u : string) :
  str_in "|" (str_or t u) = false ->
  load_entry (save_entry (new_item t u)) = new_item (str_or t u) u.
Proof. intros H. rewrite save_entry_new_item. now apply load_entry_joined. Qed.

Lemma load_save_bookmarks (w : t) :
  (_load_bookmarks (_save_bookmarks w)).(bookmark_list) =
  map load_entry (map save_entry w.(bookmark_list)).
Proof.
  unfold _load_bookmarks, _save_bookmarks; simpl.
  now rewrite value_list_same_key.
Qed.

End Bookmarks.

Section BookmarkStore.

Import MainWindow.

Lemma load_entry_legacy (entry : string) :
  str_in "|" entry = false -> load_entry entry = new_item entry entry.
Proof. intros H. unfold load_entry. now rewrite H. Qed.

Lemma lookup_map {A B : Type} (f : A -> B) (l : list A) (i : nat) (x : A) :
  l !! i = Some x -> map f l !! i = Some (f x).
Proof.
  revert i. induction l as [|a l IH]; intros [|i]; simpl; try discriminate.
  - now intros [= ->].
  - apply IH.
Qed.

(** C7 (amended). For every ordered list of (title, url) pairs in which
    neither titles nor URLs contain the separator and no pair has an
    empty title with a non-empty URL, writing the rows with
    [_save_bookmarks] and reading them back with [_load_bookmarks] yields
    the original rows, in the same order. *)
Theorem bookmarks_roundtrip (w : t) (pairs : list (string * string)) :
  Forall (fun b => str_in "|" (fst b) = false /\ str_in "|" (snd b) = false /\
                   (fst b = EmptyString -> snd b = EmptyString)) pairs ->
  (_load_bookmarks
     (_save_bookmarks (set_bookmark_list (map item_of_pair pairs) w))).(bookmark_list)
  = map item_of_pair pairs.
Proof.
  intros Hall. rewrite load_save_bookmarks. simpl.
  induction Hall as [|[t u] rest (Ht & Hu & Hempty) _ IH]; simpl; [reflexivity|].
  rewrite IH. f_equal. unfold item_of_pair; simpl in *.
  destruct t as [|c t].
  - rewrite (Hempty eq_refl). reflexivity.
  - now rewrite load_save_entry.
Qed.

Lemma bookmarks_roundtrip_witness :
  let pairs := [("Example", "https://example.com/a?b=1"); (EmptyString, EmptyString)] in
  (_load_bookmarks
     (_save_bookmarks
        (set_bookmark_list (map item_of_pair pairs) (MainWindow.__init__ ∅ false)))).(bookmark_list)
  = map item_of_pair pairs.
Proof.
  apply (bookmarks_roundtrip (MainWindow.__init__ ∅ false)
           [("Example", "https://example.com/a?b=1"); (EmptyString, EmptyString)]).
  repeat constructor; simpl; intros; discriminate.
Defined.

(** C7 as stated fails on a pair with an empty title: the entry is
    written with the URL as its title, and that is what comes back. *)
Lemma bookmarks_roundtrip_empty_title :
  let pairs := [(EmptyString, "https://example.com/")] in
  let w := set_bookmark_list (map item_of_pair pairs) (MainWindow.__init__ ∅ false) in
  Forall (fun b => str_in "|" (fst b) = false /\ str_in "|" (snd b) = false) pairs /\
  value_list (_save_bookmarks w).(settings) "bookmarks/list" []
    = ["https://example.com/|https://example.com/"] /\
  (_load_bookmarks (_save_bookmarks w)).(bookmark_list)
    = [new_item "https://example.com/" "https://example.com/"] /\
  (_load_bookmarks (_save_bookmarks w)).(bookmark_list) <> map item_of_pair pairs.
Proof.
  cbv zeta. split; [repeat constructor|].
  split; [vm_compute; reflexivity|].
  split; [vm_compute; reflexivity|].
  vm_compute. discriminate.
Qed.

(** C8. Every stored entry without the separator decodes to a row whose
    title and URL are both the whole entry, at the entry's position. *)
Theorem legacy_entry_decoding (w : t) (entries : list string) (i : nat) (entry : string) :
  value_list w.(settings) "bookmarks/list" [] = entries ->
  entries !! i = Some entry ->
  ~ is_substring "|" entry ->
  (_load_bookmarks w).(bookmark_list) !! i
  = Some {| text := entry; user_role := Some entry |}.
Proof.
  intros Hraw Hi Hbar. unfold _load_bookmarks; simpl. rewrite Hraw.
  rewrite (lookup_map load_entry entries i entry Hi). f_equal.
  apply load_entry_legacy.
  destruct (str_in "|" entry) eqn:E; [|reflexivity].
  exfalso. apply Hbar. now apply str_in_spec.
Qed.

Lemma not_substring_by_test (p s : string) : str_in p s = false -> ~ is_substring p s.
Proof. intros H Hsub. apply str_in_spec in Hsub. congruence. Qed.

Lemma legacy_entry_decoding_witness :
  let st := <["bookmarks/list" := QStringList ["Docs|https://doc.qt.io/"; "https://example.com/"]]> ∅ in
  (_load_bookmarks (MainWindow.__init__ st false)).(bookmark_list) !! 1%nat
  = Some {| text := "https://example.com/"; user_role := Some "https://example.com/" |}.
Proof.
  apply (legacy_entry_decoding
           (MainWindow.__init__
              (<["bookmarks/list" :=
                   QStringList ["Docs|https://doc.qt.io/"; "https://example.com/"]]> ∅) false)
           ["Docs|https://doc.qt.io/"; "https://example.com/"] 1%nat).
  - vm_compute. reflexivity.
  - reflexivity.
  - apply not_substring_by_test. vm_compute. reflexivity.
Defined.

End BookmarkStore.

(** ** The extension scan *)

Section Scan.

Implicit Types (d : list (pykey * entry)) (k : pykey) (e : entry).

Lemma dict_get_set_eq d k e : dict_get (dict_set d k e) k = Some e.
Proof.
  induction d as [|[k' e'] d IH]; simpl.
  - now rewrite decide_True.
  - destruct (decide (k' = k)) as [->|Hne]; simpl.
    + now rewrite decide_True.
    + now rewrite decide_False.
Qed.

Lemma dict_get_set_ne d k k' e : k <> k' -> dict_get (dict_set d k e) k' = dict_get d k'.
Proof.
  intros Hne. induction d as [|[k0 e0] d IH]; simpl.
  - now rewrite decide_False.
  - destruct (decide (k0 = k)) as [->|Hne0]; simpl.
    + now rewrite !decide_False.
    + now rewrite IH.
Qed.

Lemma scan_from_app d (l1 l2 : list dirent) :
  scan_from d (l1 ++ l2) = scan_from d l1 ≫= fun d' => scan_from d' l2.
Proof.
  revert d. induction l1 as [|sub l1 IH]; intros d; simpl; [reflexivity|].
  destruct (load_bundle d sub) as [d'|x]; simpl; [apply IH | reflexivity].
Qed.

Lemma scan_from_cons d (sub : dirent) (rest : list dirent) :
  scan_from d (sub :: rest) = load_bundle d sub ≫= fun d' => scan_from d' rest.
Proof. reflexivity. Qed.

(** A scan that starts after [pre] continues from the catalog of [pre]. *)
Lemma load_extensions_split (pre rest : list dirent) d :
  _load_extensions pre = Ok d ->
  _load_extensions (pre ++ rest) = scan_from d rest.
Proof. intros H. unfold _load_extensions in *. now rewrite scan_from_app, H. Qed.


(** An entry is stored under [stored_key] or not at all. *)
Lemma load_bundle_other_key d d' sub k :
  load_bundle d sub = Ok d' ->
  stored_key sub <> Some k ->
  dict_get d' k = dict_get d k.
Proof.
  destruct sub as [name|name m c s]; simpl.
  - now intros [= ->].
  - destruct (load_manifest name m) as [[mf ext_name]|x]; simpl; [|discriminate].
    destruct (has_key (read_artifact c) || has_key (read_artifact s)); simpl.
    + destruct (to_key ext_name) as [k0|x]; simpl; [|discriminate].
      intros [= <-] Hne. apply dict_get_set_ne. congruence.
    + now intros [= ->].
Qed.

Lemma scan_from_other_keys (l : list dirent) d d' k :
  scan_from d l = Ok d' ->
  (forall sub, In sub l -> stored_key sub <> Some k) ->
  dict_get d' k = dict_get d k.
Proof.
  revert d. induction l as [|sub l IH]; intros d; simpl.
  - now intros [= ->].
  - destruct (load_bundle d sub) as [d1|x] eqn:E; simpl; [|discriminate].
    intros Hscan Hother. rewrite (IH d1 Hscan) by auto.
    apply (load_bundle_other_key _ _ sub); auto.
Qed.

(** The entry a bundle stores is still there at the end of the scan
    unless a later bundle is stored under the same key. *)
Lemma stored_entry_survives (post : list dirent) d k e final :
  scan_from (dict_set d k e) post = Ok final ->
  (forall sub, In sub post -> stored_key sub <> Some k) ->
  dict_get final k = Some e.
Proof.
  intros Hscan Hother.
  rewrite (scan_from_other_keys post _ _ k Hscan Hother). apply dict_get_set_eq.
Qed.

(** The loop body adds what the entry stores on its own, or nothing. *)
Lemma load_bundle_stored d d' (sub : dirent) :
  load_bundle d sub = Ok d' ->
  d' = match stored sub with
       | Some (k, e) => dict_set d k e
       | None => d
       end.
Proof.
  unfold stored. destruct sub as [name|name m c s]; simpl.
  - now intros [= <-].
  - destruct (load_manifest name m) as [[mf ext_name]|x]; simpl; [|discriminate].
    destruct (has_key (read_artifact c) || has_key (read_artifact s)); simpl.
    + destruct (to_key ext_name) as [k|x]; simpl; [|discriminate]. now intros [= <-].
    + now intros [= <-].
Qed.

Lemma scan_from_last_stored (listing : list dirent) d final k :
  scan_from d listing = Ok final ->
  dict_get final k = match last_stored k listing with
                     | Some e => Some e
                     | None => dict_get d k
                     end.
Proof.
  revert d. induction listing as [|sub rest IH]; intros d; simpl.
  - now intros [= <-].
  - destruct (load_bundle d sub) as [d1|x] eqn:E; simpl; [|discriminate].
    intros Hscan. rewrite (IH d1 Hscan). apply load_bundle_stored in E.
    destruct (last_stored k rest); [reflexivity|]. subst d1.
    destruct (stored sub) as [[k' e]|]; [|reflexivity].
    destruct (decide (k' = k)) as [->|Hne].
    + apply dict_get_set_eq.
    + now apply dict_get_set_ne.
Qed.

(** Under the key of a stored entry the final catalog holds that entry, or
    the entry of the last later element stored under the same key. *)
Lemma stored_entry_or_later (post : list dirent) d k e final :
  scan_from (dict_set d k e) post = Ok final ->
  dict_get final k = Some (match last_stored k post with
                           | Some later => later
                           | None => e
                           end).
Proof.
  intros Hscan. rewrite (scan_from_last_stored post _ final k Hscan).
  destruct (last_stored k post); [reflexivity | apply dict_get_set_eq].
Qed.

End Scan.

Section ScanClaims.

Implicit Types (d : list (pykey * entry)) (pre post : list dirent).

(** C5 (amended). A bundle directory whose [manifest.json] is present but
    cannot be parsed does not abort the scan: it goes on with an empty
    manifest and the directory name as its name, and with a readable
    [content.js] the bundle is stored under that name with the script text
    as read. Under that name the returned catalog holds this entry unless
    a later bundle of the scan is stored under the same name; then it
    holds the entry of the last such bundle. *)
Theorem malformed_manifest_not_fatal pre post (name js : string) (styles : file) d :
  _load_extensions pre = Ok d ->
  let sub := Dir name BadManifest (Text js) styles in
  let e := {| manifest := JDict [];
              content_js := Some js;
              styles_css := read_artifact styles |} in
  load_manifest name BadManifest = Ok (JDict [], JStr name) /\
  load_bundle d sub = Ok (dict_set d (KStr name) e) /\
  _load_extensions (pre ++ sub :: post) = scan_from (dict_set d (KStr name) e) post /\
  (forall final,
      _load_extensions (pre ++ sub :: post) = Ok final ->
      dict_get final (KStr name)
      = Some (match last_stored (KStr name) post with
              | Some later => later
              | None => e
              end)
      /\
      ((forall later, In later post -> stored_key later <> Some (KStr name)) ->
       dict_get final (KStr name) = Some e)).
Proof.
  intros Hpre sub e.
  assert (Hstep : load_bundle d sub = Ok (dict_set d (KStr name) e)) by reflexivity.
  assert (Hscan : _load_extensions (pre ++ sub :: post)
                  = scan_from (dict_set d (KStr name) e) post).
  { rewrite (load_extensions_split pre _ d Hpre), scan_from_cons. now rewrite Hstep. }
  split; [reflexivity|]. split; [exact Hstep|]. split; [exact Hscan|].
  intros final Hfinal. rewrite Hscan in Hfinal. split.
  - now apply (stored_entry_or_later post d).
  - intros Hlater. now apply (stored_entry_survives post d).
Qed.

Lemma malformed_manifest_not_fatal_witness :
  let pre := [File "README.md";
              Dir "darkmode" (Manifest (JDict [("name", JStr "Dark Mode")]))
                  Missing (Text "html{background:#111}")] in
  let dark := {| manifest := JDict [("name", JStr "Dark Mode")];
                 content_js := None;
                 styles_css := Some "html{background:#111}" |} in
  let e := {| manifest := JDict [];
              content_js := Some "console.log(1)";
              styles_css := None |} in
  _load_extensions (pre ++ [Dir "broken" BadManifest (Text "console.log(1)") Missing])
  = Ok [(KStr "Dark Mode", dark); (KStr "broken", e)].
Proof.
  cbv zeta.
  pose proof (malformed_manifest_not_fatal
                [File "README.md";
                 Dir "darkmode" (Manifest (JDict [("name", JStr "Dark Mode")]))
                     Missing (Text "html{background:#111}")]
                [] "broken" "console.log(1)" Missing
                [(KStr "Dark Mode",
                  {| manifest := JDict [("name", JStr "Dark Mode")];
                     content_js := None;
                     styles_css := Some "html{background:#111}" |})])
    as H.
  cbv zeta in H.
  destruct H as (_ & _ & Hscan & _).
  - vm_compute. reflexivity.
  - exact Hscan.
Defined.

(** C5 as stated fails when a later bundle resolves to the same name: a
    directory named as the manifest of a later bundle names that bundle
    loses its place, and its script is not in the returned catalog. *)
Lemma malformed_manifest_bundle_replaced :
  let listing :=
    [Dir "Dark Mode" BadManifest (Text "go()") Missing;
     Dir "darkmode" (Manifest (JDict [("name", JStr "Dark Mode")]))
         Missing (Text "html{background:#111}")] in
  _load_extensions listing
  = Ok [(KStr "Dark Mode", {| manifest := JDict [("name", JStr "Dark Mode")];
                              content_js := None;
                              styles_css := Some "html{background:#111}" |})]
  /\
  ~ (exists final k e,
        _load_extensions listing = Ok final /\
        In (k, e) final /\ e.(content_js) = Some "go()").
Proof.
  cbv zeta. split; [reflexivity|].
  intros (final & k & e & Hfinal & Hin & Hjs). vm_compute in Hfinal.
  injection Hfinal as <-. destruct Hin as [Heq|[]].
  injection Heq as <- <-. discriminate.
Qed.

(** C6 (amended). A bundle directory holding only [styles.css] is stored
    under its directory name with no [content_js] key; under that name the
    returned catalog holds this entry unless a later bundle of the scan is
    stored under the same name, and then the entry of the last such
    bundle. A bundle directory with no file is gone through without
    effect: the scan gives what it gives without that directory, and no
    entry stands under its name unless another bundle takes that name. *)
Theorem catalog_membership pre post (name : string) (styles : file) d :
  styles <> Missing ->
  _load_extensions pre = Ok d ->
  let only_styles := Dir name NoManifest Missing styles in
  let empty := Dir name NoManifest Missing Missing in
  let e := {| manifest := JDict [];
              content_js := None;
              styles_css := read_artifact styles |} in
  (_load_extensions (pre ++ only_styles :: post)
   = scan_from (dict_set d (KStr name) e) post /\
   forall final,
     _load_extensions (pre ++ only_styles :: post) = Ok final ->
     dict_get final (KStr name)
     = Some (match last_stored (KStr name) post with
             | Some later => later
             | None => e
             end)
     /\
     ((forall later, In later post -> stored_key later <> Some (KStr name)) ->
      dict_get final (KStr name) = Some e /\ e.(content_js) = None))
  /\
  (load_bundle d empty = Ok d /\
   _load_extensions (pre ++ empty :: post) = _load_extensions (pre ++ post) /\
   forall final,
     _load_extensions (pre ++ empty :: post) = Ok final ->
     (forall other, In other (pre ++ post) -> stored_key other <> Some (KStr name)) ->
     dict_get final (KStr name) = None).
Proof.
  intros Hstyles Hpre only_styles empty e. split.
  - assert (Hscan : _load_extensions (pre ++ only_styles :: post)
                    = scan_from (dict_set d (KStr name) e) post).
    { rewrite (load_extensions_split pre _ d Hpre), scan_from_cons.
      destruct styles; [congruence | reflexivity | reflexivity]. }
    split; [exact Hscan|].
    intros final Hfinal. rewrite Hscan in Hfinal. split.
    + now apply (stored_entry_or_later post d).
    + intros Hlater. split; [now apply (stored_entry_survives post d) | reflexivity].
  - assert (Hsame : _load_extensions (pre ++ empty :: post) = _load_extensions (pre ++ post)).
    { now rewrite !(load_extensions_split pre _ d Hpre). }
    repeat split; auto.
    intros final Hfinal Hother. rewrite Hsame in Hfinal.
    now rewrite (scan_from_other_keys _ _ _ (KStr name) Hfinal Hother).
Qed.

Lemma catalog_membership_witness :
  let pre := [Dir "reader" NoManifest (Text "go()") Missing] in
  let reader := {| manifest := JDict []; content_js := Some "go()"; styles_css := None |} in
  let e := {| manifest := JDict []; content_js := None; styles_css := Some "a{color:red}" |} in
  _load_extensions (pre ++ [Dir "theme" NoManifest Missing (Text "a{color:red}")])
  = Ok [(KStr "reader", reader); (KStr "theme", e)]
  /\
  _load_extensions (pre ++ [Dir "theme" NoManifest Missing Missing]) = Ok [(KStr "reader", reader)].
Proof.
  cbv zeta.
  pose proof (catalog_membership
                [Dir "reader" NoManifest (Text "go()") Missing] []
                "theme" (Text "a{color:red}")
                [(KStr "reader",
                  {| manifest := JDict []; content_js := Some "go()"; styles_css := None |})])
    as H.
  cbv zeta in H.
  destruct H as [[Hin _] (_ & Hout & _)].
  - discriminate.
  - vm_compute. reflexivity.
  - split; [exact Hin | exact Hout].
Defined.

(** C6 as stated fails when a later bundle resolves to the name of the
    directory: the entry under the directory name is then the later
    bundle's, here one with a content script and no stylesheet. *)
Lemma styles_only_bundle_replaced :
  let listing :=
    [Dir "theme" NoManifest Missing (Text "a{color:red}");
     Dir "extra" (Manifest (JDict [("name", JStr "theme")])) (Text "run()") Missing] in
  _load_extensions listing
  = Ok [(KStr "theme", {| manifest := JDict [("name", JStr "theme")];
                          content_js := Some "run()";
                          styles_css := None |})]
  /\
  ~ (exists final e,
        _load_extensions listing = Ok final /\
        dict_get final (KStr "theme") = Some e /\
        e.(content_js) = None /\ e.(styles_css) = Some "a{color:red}").
Proof.
  cbv zeta. split; [reflexivity|].
  intros (final & e & Hfinal & Hget & Hjs & _). vm_compute in Hfinal.
  injection Hfinal as <-. vm_compute in Hget. injection Hget as <-. discriminate.
Qed.

End ScanClaims.

Section ReadFailure.

Implicit Types (d : list (pykey * entry)) (pre post : list dirent).






End ReadFailure.

(** ** The injection pass *)

Section Injection.

Implicit Types (exts pre post : list (pykey * entry)) (k : pykey) (e : entry).

Lemma inject_css_app pre post : inject_css (pre ++ post) = inject_css pre ++ inject_css post.
Proof.
  induction pre as [|[k e] pre IH]; simpl; [reflexivity|].
  destruct (styles_css e) as [[|c css]|]; simpl; now rewrite IH.
Qed.

Lemma inject_js_app pre post : inject_js (pre ++ post) = inject_js pre ++ inject_js post.
Proof.
  induction pre as [|[k e] pre IH]; simpl; [reflexivity|].
  destruct (content_js e) as [[|c js]|]; simpl; now rewrite IH.
Qed.

Lemma inject_css_here k e post (css : string) :
  e.(styles_css) = Some css -> css <> EmptyString ->
  inject_css ((k, e) :: post) = style_script css :: inject_css post.
Proof. intros H Hne. simpl. rewrite H. now destruct css. Qed.

Lemma inject_js_here k e post (js : string) :
  e.(content_js) = Some js -> js <> EmptyString ->
  inject_js ((k, e) :: post) = js :: inject_js post.
Proof. intros H Hne. simpl. rewrite H. now destruct js. Qed.

(** The script built for a stylesheet, in one piece. *)
Lemma style_script_text (css : string) :
  style_script css =
  "(function(){var style=document.createElement('style');style.textContent="
  +:+ str_repr css +:+ ";document.head.appendChild(style);})();".
Proof. reflexivity. Qed.

Lemma js_chars_repr_char (quote c : ascii) (rest : string) :
  quote = single_quote \/ quote = double_quote ->
  js_chars quote (repr_char quote c +:+ rest) = String c <$> js_chars quote rest.
Proof.
  intros [-> | ->]; destruct c as [[] [] [] [] [] [] [] []]; reflexivity.
Qed.

Lemma append_assoc (a b c : string) : (a +:+ b) +:+ c = a +:+ (b +:+ c).
Proof.
  induction a as [|x a IH]; [reflexivity|].
  now rewrite !append_String, IH.
Qed.

Lemma js_chars_repr_body (quote : ascii) (s : string) :
  quote = single_quote \/ quote = double_quote ->
  js_chars quote (repr_body quote s +:+ String quote EmptyString) = Some s.
Proof.
  intros Hq. induction s as [|c s IH].
  - simpl. now rewrite Ascii.eqb_refl.
  - simpl repr_body. rewrite append_assoc, js_chars_repr_char by exact Hq.
    now rewrite IH.
Qed.

(** Read as a JavaScript string literal, what [%r] writes denotes the
    stylesheet text itself: the assignment in [style_script] sets the text
    content to the raw CSS. *)
Lemma js_value_of_repr (css : string) : js_string_value (str_repr css) = Some css.
Proof.
  unfold str_repr, js_string_value.
  destruct (str_in (String single_quote EmptyString) css
            && negb (str_in (String double_quote EmptyString) css)).
  - apply js_chars_repr_body. now right.
  - apply js_chars_repr_body. now left.
Qed.

(** X31. In every injection pass the wrapper script of an extension's
    non-empty stylesheet is run at the extension's place among the
    stylesheet calls, which all come before the content-script calls: for
    an extension that also has a non-empty content script, the stylesheet
    call comes before the call that runs its content script, and between
    the two come the stylesheets of the later extensions and the scripts
    of the earlier ones. *)
Theorem styles_injected_before_scripts pre post k e (css : string) :
  e.(styles_css) = Some css -> css <> EmptyString ->
  _inject_extensions (pre ++ (k, e) :: post) =
    inject_css pre ++ style_script css :: inject_css post
    ++ inject_js (pre ++ (k, e) :: post)
  /\
  forall js : string,
    e.(content_js) = Some js -> js <> EmptyString ->
    _inject_extensions (pre ++ (k, e) :: post) =
      inject_css pre ++ style_script css :: inject_css post
      ++ inject_js pre ++ js :: inject_js post.
Proof.
  intros Hcss Hne.
  unfold _inject_extensions.
  rewrite inject_css_app, (inject_css_here k e post css Hcss Hne).
  split.
  - now rewrite <- app_assoc.
  - intros js Hjs Hjne.
    rewrite inject_js_app, (inject_js_here k e post js Hjs Hjne).
    now rewrite <- app_assoc.
Qed.

Lemma styles_injected_before_scripts_witness :
  let dark := {| manifest := JDict [("name", JStr "Dark Mode")];
                 content_js := None;
                 styles_css := Some "a{color:#4aa3ff}" |} in
  let both := {| manifest := JDict [];
                 content_js := Some "init()";
                 styles_css := Some "p{margin:0}" |} in
  let only_js := {| manifest := JDict [];
                    content_js := Some "track()";
                    styles_css := Some EmptyString |} in
  _inject_extensions
    ([(KStr "first", only_js); (KStr "Dark Mode", dark)]
       ++ (KStr "both", both) :: [])
  = [ "(function(){var style=document.createElement('style');style.textContent='a{color:#4aa3ff}';document.head.appendChild(style);})();";
      "(function(){var style=document.createElement('style');style.textContent='p{margin:0}';document.head.appendChild(style);})();";
      "track()";
      "init()" ].
Proof.
  cbv zeta.
  pose proof (styles_injected_before_scripts
                [(KStr "first", {| manifest := JDict [];
                                   content_js := Some "track()";
                                   styles_css := Some EmptyString |});
                 (KStr "Dark Mode", {| manifest := JDict [("name", JStr "Dark Mode")];
                                       content_js := None;
                                       styles_css := Some "a{color:#4aa3ff}" |})]
                [] (KStr "both")
                {| manifest := JDict [];
                   content_js := Some "init()";
                   styles_css := Some "p{margin:0}" |}
                "p{margin:0}" eq_refl) as H.
  destruct H as (_ & Horder); [discriminate|].
  rewrite (Horder "init()" eq_refl); [|discriminate].
  vm_compute. reflexivity.
Defined.

End Injection.


(** ** The address bar *)

Section AddressBar.

Lemma lstrip_all_space (s : string) : all_space s = true -> str_lstrip s = EmptyString.
Proof.
  induction s as [|c s IH]; simpl; [reflexivity|].
  rewrite andb_true_iff. intros [-> Hs]. auto.
Qed.

(** An empty or whitespace-only input strips to the empty string. *)
Lemma strip_all_space (s : string) : all_space s = true -> str_strip s = EmptyString.
Proof. intros H. unfold str_strip. now rewrite lstrip_all_space. Qed.

(** The cases of [normalize_url] cover every stripped text. *)
Lemma normalize_url_cases_cover (t : string) :
  t = EmptyString \/
  (str_in " " t = false /\ str_in "." t = true /\ str_in "://" t = false) \/
  (t <> EmptyString /\ str_in "://" t = false /\ (str_in " " t = true \/ str_in "." t = false)) \/
  str_in "://" t = true.
Proof.
  destruct t as [|c t]; [now left | right].
  destruct (str_in "://" (String c t)); [now right; right|].
  destruct (str_in " " (String c t)); [right; left; repeat split; auto; discriminate|].
  destruct (str_in "." (String c t)); [left; auto|].
  right; left; repeat split; auto; discriminate.
Qed.

(** C10 (amended). The cases of [normalize_url] are taken on the input
    with its leading and trailing whitespace stripped. With [t] the
    stripped input: an empty [t] (so every empty or whitespace-only input)
    gives the home URL; a space-free [t] with a dot and no [://] gives
    [t] prefixed with [https://]; a non-empty [t] without [://] that has a
    space or no dot gives the search URL whose query is [t]
    percent-encoded; a [t] with [://] is returned as it is. *)
Theorem normalize_url_cases (text : string) :
  let t := str_strip text in
  (all_space text = true -> normalize_url text = QUrl_ HOME_URL) /\
  (t = EmptyString -> normalize_url text = QUrl_ HOME_URL) /\
  (str_in " " t = false -> str_in "." t = true -> str_in "://" t = false ->
   normalize_url text = QUrl_ ("https://" +:+ t)) /\
  (t <> EmptyString -> str_in "://" t = false ->
   str_in " " t = true \/ str_in "." t = false ->
   normalize_url text = QUrl_ ("https://duckduckgo.com/?q=" +:+ toPercentEncoding t)) /\
  (str_in "://" t = true -> normalize_url text = QUrl_ t).
Proof.
  intros t. unfold normalize_url. fold t.
  assert (Hempty : t = EmptyString ->
                   match t with
                   | EmptyString => QUrl_ HOME_URL
                   | String _ _ =>
                       if negb (str_in " " t) && str_in "." t && negb (str_in "://" t)
                       then QUrl_ ("https://" +:+ t)
                       else if negb (str_in "://" t) && (str_in " " t || negb (str_in "." t))
                            then QUrl_ ("https://duckduckgo.com/?q=" +:+ toPercentEncoding t)
                            else QUrl_ t
                   end = QUrl_ HOME_URL) by (now intros ->).
  split; [intros Hall; apply Hempty, strip_all_space, Hall|].
  split; [exact Hempty|]. clear Hempty.
  split; [|split].
  - intros Hsp Hdot Hsch. destruct t as [|c t']; [discriminate|].
    now rewrite Hsp, Hdot, Hsch.
  - intros Hne Hsch Hor. destruct t as [|c t']; [congruence|].
    rewrite Hsch. destruct Hor as [-> | ->]; simpl; [reflexivity|].
    now rewrite andb_false_r, orb_true_r.
  - intros Hsch. destruct t as [|c t']; [discriminate|].
    rewrite Hsch. simpl. now rewrite !andb_false_r.
Qed.

Lemma normalize_url_cases_witness :
  normalize_url "   " = QUrl_ "https://duckduckgo.com/" /\
  normalize_url "  example.com " = QUrl_ "https://example.com" /\
  normalize_url " qt widgets" = QUrl_ "https://duckduckgo.com/?q=qt%20widgets" /\
  normalize_url "localhost" = QUrl_ "https://duckduckgo.com/?q=localhost" /\
  normalize_url "file:///tmp/a b.html " = QUrl_ "file:///tmp/a b.html".
Proof.
  split; [apply (normalize_url_cases "   "); reflexivity|].
  split; [apply (normalize_url_cases "  example.com "); reflexivity|].
  split; [apply (normalize_url_cases " qt widgets");
          [discriminate | reflexivity | left; reflexivity]|].
  split; [apply (normalize_url_cases "localhost");
          [discriminate | reflexivity | right; reflexivity]|].
  apply (normalize_url_cases "file:///tmp/a b.html "); reflexivity.
Defined.

(** C10 as stated fails on inputs with surrounding whitespace: an input
    without [://] that contains a space is said to give the search URL of
    the input, and a space-free input with a dot and no [://] to give the
    input prefixed with [https://]; the code strips the input first. *)
Lemma normalize_url_strips_first :
  (str_in "://" " example.com" = false /\
   str_in " " " example.com" = true /\
   normalize_url " example.com" = QUrl_ "https://example.com" /\
   normalize_url " example.com" <> search_url " example.com")
  /\
  (let tabbed := String (ascii_of_N 9) "example.com" in
   str_in " " tabbed = false /\
   str_in "." tabbed = true /\
   str_in "://" tabbed = false /\
   normalize_url tabbed = QUrl_ "https://example.com" /\
   normalize_url tabbed <> QUrl_ ("https://" +:+ tabbed)).
Proof.
  split.
  - repeat split; try reflexivity. vm_compute. discriminate.
  - cbv zeta. repeat split; try reflexivity. vm_compute. discriminate.
Qed.

End AddressBar.


(** * Further properties of the code *)

(** ** The filter at start-up and under its list *)

Section FilterMore.

Import SimpleAdblockInterceptor.

Lemma held_after_init (st : gmap string qvariant) (otr : bool) :
  (MainWindow.__init__ st otr).(MainWindow.adblock_interceptor)
  = __init__ (match value_list st "adblock/patterns" [] with
              | [] => None
              | p :: ps => Some (p :: ps)
              end).
Proof.
  unfold MainWindow.__init__; simpl.
  now destruct (value_list st "adblock/patterns" []).
Qed.

Lemma value_list_of_list (st : gmap string qvariant) (key : string) (saved : list string) :
  st !! key = Some (QStringList saved) \/ (st !! key = None /\ saved = []) ->
  value_list st key [] = saved.
Proof. unfold value_list. now intros [-> | [-> ->]]. Qed.

(** X1. At start-up, when the store hands back a list of patterns under
    [adblock/patterns] or has no such key, the window's filter blocks a
    request exactly when one of these patterns (the built-in ones when
    the list is empty or absent), lowercased, occurs in the lowercased
    request URL. *)
Theorem startup_filter_decision (st : gmap string qvariant) (otr : bool)
        (saved : list string) (u : string) :
  st !! "adblock/patterns" = Some (QStringList saved)
  \/ (st !! "adblock/patterns" = None /\ saved = []) ->
  (MainWindow.request (MainWindow.__init__ st otr) u = Block <->
   exists p,
     In p (match saved with
           | [] => default_patterns
           | _ :: _ => saved
           end)
     /\ is_substring (str_lower p) (str_lower u)).
Proof.
  intros Hst. apply value_list_of_list in Hst.
  unfold MainWindow.request. rewrite held_after_init, interceptRequest_init, Hst.
  now destruct saved.
Qed.

Lemma startup_filter_decision_witness :
  MainWindow.request
    (MainWindow.__init__ (<["adblock/patterns" := QStringList ["Banner"; "popup"]]> ∅) false)
    "https://example.com/BANNER.png" = Block <->
  exists p, In p ["Banner"; "popup"]
            /\ is_substring (str_lower p) (str_lower "https://example.com/BANNER.png").
Proof.
  apply (startup_filter_decision
           (<["adblock/patterns" := QStringList ["Banner"; "popup"]]> ∅) false
           ["Banner"; "popup"] "https://example.com/BANNER.png").
  left. reflexivity.
Defined.

(** X2. An empty pattern blocks everything: a filter constructed from a
    list that contains the empty string blocks every request. *)
Theorem empty_pattern_blocks_all (ps : list string) (u : string) :
  In EmptyString ps ->
  interceptRequest (__init__ (Some ps)) u = Block.
Proof.
  intros Hin. apply interceptRequest_init. exists EmptyString. split.
  - destruct ps; [destruct Hin | exact Hin].
  - now exists EmptyString, (str_lower u).
Qed.

Lemma empty_pattern_blocks_all_witness :
  interceptRequest (__init__ (Some ["adserver"; EmptyString])) "https://example.com/" = Block.
Proof.
  apply (empty_pattern_blocks_all ["adserver"; EmptyString] "https://example.com/").
  simpl. auto.
Defined.

(** X3. The decision depends on the set of held patterns only: a request
    blocked under a list is blocked under every list that contains its
    patterns, so order and repetitions play no role. *)
Theorem decision_monotone_in_patterns (ps ps' : list string) (u : string) :
  (forall p, In p ps -> In p ps') ->
  interceptRequest {| patterns := ps |} u = Block ->
  interceptRequest {| patterns := ps' |} u = Block.
Proof.
  intros Hincl. rewrite !interceptRequest_held. simpl.
  intros (p & Hin & Hsub). exists p. auto.
Qed.

Lemma decision_monotone_in_patterns_witness :
  interceptRequest {| patterns := ["tracking"; "ads."; "ads."] |} "http://ADS.example.org/" = Block.
Proof.
  apply (decision_monotone_in_patterns ["ads."] ["tracking"; "ads."; "ads."]).
  - simpl. intros p [<-|[]]. auto.
  - reflexivity.
Defined.

End FilterMore.

(** ** Toggling and closing *)

Section ToggleMore.

Import MainWindow.
Abbreviation patterns_of w := (SimpleAdblockInterceptor.patterns w.(adblock_interceptor)).

Lemma toggle_flag (w : t) : (toggle_adblock w).(adblock_enabled) = negb w.(adblock_enabled).
Proof.
  unfold toggle_adblock; simpl.
  destruct (negb (negb (adblock_enabled w))); simpl; [reflexivity|].
  now destruct (value_list _ "adblock/patterns" []).
Qed.

Lemma toggle_bookmarks (w : t) : (toggle_adblock w).(bookmark_list) = w.(bookmark_list).
Proof.
  unfold toggle_adblock; simpl.
  destruct (negb (negb (adblock_enabled w))); simpl; [reflexivity|].
  now destruct (value_list _ "adblock/patterns" []).
Qed.

(** X4. A toggle flips the enabled flag and writes it to the store at
    once, so that the stored flag is the flag of the window; it writes no
    other key and leaves the bookmark rows alone. *)
Theorem toggle_persists_flag_only (w : t) :
  (toggle_adblock w).(adblock_enabled) = negb w.(adblock_enabled) /\
  value_bool (toggle_adblock w).(settings) "adblock/enabled" true
    = (toggle_adblock w).(adblock_enabled) /\
  (forall k, k <> "adblock/enabled" -> (toggle_adblock w).(settings) !! k = w.(settings) !! k) /\
  (toggle_adblock w).(bookmark_list) = w.(bookmark_list).
Proof.
  rewrite toggle_flag, toggle_settings, toggle_bookmarks. repeat split.
  - unfold value_bool, setValue. now rewrite lookup_insert_eq.
  - intros k Hk. unfold setValue. now rewrite lookup_insert_ne.
Qed.

(** X5. Switching an enabled filter off lets every request through, and
    the window is recorded as disabled in the store. *)
Theorem disabling_allows_every_request (w : t) (u : string) :
  w.(adblock_enabled) = true ->
  request (toggle_adblock w) u = Allow /\
  value_bool (toggle_adblock w).(settings) "adblock/enabled" true = false.
Proof.
  intros Hen. destruct (toggle_off w Hen) as (Hflag & _ & Hallow).
  split; [apply Hallow|].
  rewrite toggle_settings, Hen. unfold value_bool, setValue.
  now rewrite lookup_insert_eq.
Qed.

Lemma disabling_allows_every_request_witness :
  request (toggle_adblock (MainWindow.__init__ ∅ false)) "https://doubleclick.net/ad.js" = Allow /\
  value_bool (toggle_adblock (MainWindow.__init__ ∅ false)).(settings) "adblock/enabled" true
    = false.
Proof.
  apply (disabling_allows_every_request (MainWindow.__init__ ∅ false)). reflexivity.
Defined.

(** X6. Off and on again, when the store hands back a list under
    [adblock/patterns] or has no such key: the filter is enabled again and
    holds exactly that list, as it is saved; with no saved list it holds
    no pattern. *)
Theorem reenabling_installs_saved_list (w : t) (saved : list string) :
  w.(adblock_enabled) = true ->
  w.(settings) !! "adblock/patterns" = Some (QStringList saved)
  \/ (w.(settings) !! "adblock/patterns" = None /\ saved = []) ->
  (toggle_adblock (toggle_adblock w)).(adblock_enabled) = true /\
  patterns_of (toggle_adblock (toggle_adblock w)) = saved.
Proof.
  intros Hen Hst. split.
  - now rewrite !toggle_flag, Hen.
  - rewrite toggle_twice by exact Hen. unfold value_list.
    now destruct Hst as [-> | [-> ->]].
Qed.

Lemma reenabling_installs_saved_list_witness :
  let st := <["adblock/patterns" := QStringList ["banner"; "popup"]]> ∅ in
  let w := toggle_adblock (toggle_adblock (MainWindow.__init__ st false)) in
  w.(adblock_enabled) = true /\ patterns_of w = ["banner"; "popup"].
Proof.
  cbv zeta.
  apply (reenabling_installs_saved_list
           (MainWindow.__init__
              (<["adblock/patterns" := QStringList ["banner"; "popup"]]> ∅) false)
           ["banner"; "popup"]).
  - reflexivity.
  - left. reflexivity.
Defined.

End ToggleMore.

Section CloseMore.

Import MainWindow.

Lemma closeEvent_settings (w : t) (urls : list string) :
  (closeEvent w urls).(settings)
  = setValue "adblock/patterns"
      (QStringList (SimpleAdblockInterceptor.patterns w.(adblock_interceptor)))
      (setValue "bookmarks/list" (QStringList (map save_entry w.(bookmark_list)))
         (if w.(off_the_record) then w.(settings)
          else setValue "session/urls" (QStringList urls) w.(settings))).
Proof. unfold closeEvent, save_session. now destruct (off_the_record w). Qed.

(** X8. Switching the filter off and closing the window forgets the
    saved patterns: closing writes the empty list under
    [adblock/patterns], whatever the store held there before. *)
Theorem disabling_then_closing_forgets_patterns (w : t) (urls : list string) :
  w.(adblock_enabled) = true ->
  (closeEvent (toggle_adblock w) urls).(settings) !! "adblock/patterns"
  = Some (QStringList []).
Proof.
  intros Hen. destruct (toggle_off w Hen) as (_ & Hnil & _).
  rewrite closeEvent_settings, Hnil. unfold setValue. apply lookup_insert_eq.
Qed.

Lemma disabling_then_closing_forgets_patterns_witness :
  let st := <["adblock/patterns" := QStringList ["banner"; "popup"]]> ∅ in
  (closeEvent (toggle_adblock (MainWindow.__init__ st false))
              ["https://example.com/"]).(settings) !! "adblock/patterns"
  = Some (QStringList []).
Proof.
  cbv zeta.
  apply (disabling_then_closing_forgets_patterns
           (MainWindow.__init__
              (<["adblock/patterns" := QStringList ["banner"; "popup"]]> ∅) false)
           ["https://example.com/"]).
  reflexivity.
Defined.

(** X9. What closing writes: the bookmark rows, as entries, under
    [bookmarks/list], and the patterns the filter holds under
    [adblock/patterns]; apart from these two keys and [session/urls] it
    leaves every key as it was, the enabled flag and the user agent among
    them. *)
Theorem close_writes (w : t) (urls : list string) :
  (closeEvent w urls).(settings) !! "bookmarks/list"
    = Some (QStringList (map save_entry w.(bookmark_list))) /\
  (closeEvent w urls).(settings) !! "adblock/patterns"
    = Some (QStringList (SimpleAdblockInterceptor.patterns w.(adblock_interceptor))) /\
  (forall k, k <> "session/urls" -> k <> "bookmarks/list" -> k <> "adblock/patterns" ->
             (closeEvent w urls).(settings) !! k = w.(settings) !! k).
Proof.
  rewrite closeEvent_settings. unfold setValue. repeat split.
  - rewrite lookup_insert_ne by discriminate. apply lookup_insert_eq.
  - apply lookup_insert_eq.
  - intros k Hs Hb Hp. rewrite !lookup_insert_ne by congruence.
    destruct (off_the_record w); [reflexivity | now rewrite lookup_insert_ne].
Qed.

End CloseMore.

(** ** Bookmark rows and their store *)

Section BookmarksMore.

Import MainWindow.

(** X10. The round trip needs nothing of the URLs: rows with a non-empty
    title that has no separator come back from the store unchanged and in
    order, whatever their URLs contain, the separator included. *)
Theorem bookmarks_roundtrip_any_url (w : t) (pairs : list (string * string)) :
  Forall (fun b => fst b <> EmptyString /\ str_in "|" (fst b) = false) pairs ->
  (_load_bookmarks
     (_save_bookmarks (set_bookmark_list (map item_of_pair pairs) w))).(bookmark_list)
  = map item_of_pair pairs.
Proof.
  intros Hall. rewrite load_save_bookmarks. simpl.
  induction Hall as [|[t u] rest [Hne Hbar] _ IH]; simpl; [reflexivity|].
  rewrite IH. f_equal. unfold item_of_pair; simpl in *.
  destruct t as [|c t]; [congruence|]. now rewrite load_save_entry.
Qed.

Lemma bookmarks_roundtrip_any_url_witness :
  let pairs := [("Search", "https://example.com/?q=a|b"); ("Docs", "https://doc.qt.io/")] in
  (_load_bookmarks
     (_save_bookmarks
        (set_bookmark_list (map item_of_pair pairs) (MainWindow.__init__ ∅ true)))).(bookmark_list)
  = map item_of_pair pairs.
Proof.
  apply (bookmarks_roundtrip_any_url (MainWindow.__init__ ∅ true)
           [("Search", "https://example.com/?q=a|b"); ("Docs", "https://doc.qt.io/")]).
  repeat constructor; simpl; discriminate.
Defined.

Lemma save_load_entry_titled (c : ascii) (t rest : string) :
  str_in "|" (String c t) = false ->
  save_entry (load_entry (String c t +:+ "|" +:+ rest)) = String c t +:+ "|" +:+ rest.
Proof. intros H. now rewrite load_entry_joined, save_entry_new_item. Qed.

Lemma save_load_entry_legacy (e : string) :
  str_in "|" e = false -> save_entry (load_entry e) = e +:+ "|" +:+ e.
Proof.
  intros H. rewrite load_entry_legacy, save_entry_new_item by exact H. now destruct e.
Qed.

(** X11. Loading the bookmarks and saving them again, when the store
    hands back a list under [bookmarks/list]: the stored list is as it was
    when every entry has a non-empty title before its first separator; an
    entry without separator is rewritten, at its place, as the entry, the
    separator, and the entry again. *)
Theorem load_then_save_keeps_store (w : t) (entries : list string) :
  w.(settings) !! "bookmarks/list" = Some (QStringList entries) ->
  exists entries',
    (_save_bookmarks (_load_bookmarks w)).(settings) !! "bookmarks/list"
      = Some (QStringList entries') /\
    (Forall (fun e => exists c t rest,
                 e = String c t +:+ "|" +:+ rest /\ str_in "|" (String c t) = false)
            entries ->
     entries' = entries) /\
    (forall i e, entries !! i = Some e -> str_in "|" e = false ->
                 entries' !! i = Some (e +:+ "|" +:+ e)).
Proof.
  intros Hst. exists (map (fun e => save_entry (load_entry e)) entries). split; [|split].
  - unfold _save_bookmarks, _load_bookmarks, value_list, setValue; simpl.
    rewrite lookup_insert_eq, Hst. cbn iota. now rewrite List.map_map.
  - clear Hst. intros Hall.
    induction Hall as [|e es (c & t & rest & -> & Hbar) _ IH]; simpl; [reflexivity|].
    now rewrite IH, save_load_entry_titled.
  - intros i e Hi Hbar.
    rewrite (lookup_map _ _ i e Hi). now rewrite save_load_entry_legacy.
Qed.

Lemma load_then_save_keeps_store_witness :
  let st := <["bookmarks/list" := QStringList ["Docs|https://doc.qt.io/"; "https://example.com/"]]> ∅ in
  exists entries',
    (_save_bookmarks (_load_bookmarks (MainWindow.__init__ st false))).(settings)
      !! "bookmarks/list" = Some (QStringList entries') /\
    entries' !! 1%nat = Some "https://example.com/|https://example.com/".
Proof.
  cbv zeta.
  destruct (load_then_save_keeps_store
              (MainWindow.__init__
                 (<["bookmarks/list" :=
                      QStringList ["Docs|https://doc.qt.io/"; "https://example.com/"]]> ∅)
                 false)
              ["Docs|https://doc.qt.io/"; "https://example.com/"])
    as (entries' & Hstore & _ & Hlegacy); [vm_compute; reflexivity|].
  exists entries'. split; [exact Hstore|].
  apply (Hlegacy 1%nat "https://example.com/"); reflexivity.
Defined.

Lemma delete_last {A : Type} (l : list A) (x : A) : delete (length l) (l ++ [x]) = l.
Proof. induction l as [|a l IH]; simpl; [reflexivity | now rewrite IH]. Qed.

(** X12. Adding a bookmark for the current page appends one row, titled
    with the page title or, when that is empty, with the URL, and writes
    the rows to the store; without a current view nothing changes. *)
Theorem add_bookmark_appends (w : t) (url title : string) :
  let w' := add_bookmark_for_current w (Some (url, title)) in
  w'.(bookmark_list) = w.(bookmark_list) ++ [new_item (str_or title url) url] /\
  value_list w'.(settings) "bookmarks/list" [] = map save_entry w'.(bookmark_list) /\
  (url <> EmptyString -> str_or title url <> EmptyString) /\
  add_bookmark_for_current w None = w.
Proof.
  cbv zeta. unfold add_bookmark_for_current, _save_bookmarks. simpl.
  rewrite value_list_same_key. repeat split.
  intros Hurl. destruct title; simpl; [exact Hurl | discriminate].
Qed.

(** X13. Removing a row takes exactly that row out, keeps the others in
    order and writes the remaining rows to the store; removing the row
    just added gives the rows back as they were. *)
Theorem remove_bookmark_row (w : t) (row : nat) (view : string * string) :
  (remove_bookmark w row).(bookmark_list) = delete row w.(bookmark_list) /\
  value_list (remove_bookmark w row).(settings) "bookmarks/list" []
    = map save_entry (delete row w.(bookmark_list)) /\
  (remove_bookmark (add_bookmark_for_current w (Some view))
                   (length w.(bookmark_list))).(bookmark_list)
    = w.(bookmark_list).
Proof.
  unfold remove_bookmark, _save_bookmarks. simpl.
  rewrite value_list_same_key. repeat split.
  destruct view as [url title]. simpl. apply delete_last.
Qed.

End BookmarksMore.


(** ** More on the scan *)

Section ScanMore.

Implicit Types (d : list (pykey * entry)) (pre post listing : list dirent) (k : pykey).

(** X14. Entries of the extension directory that are not directories are
    passed over: the scan gives what it gives without them. *)
Theorem files_are_passed_over pre post (name : string) :
  _load_extensions (pre ++ File name :: post) = _load_extensions (pre ++ post).
Proof. unfold _load_extensions. now rewrite !scan_from_app. Qed.

(** X15. A manifest that is valid JSON but not an object ends the whole
    scan with [AttributeError], whatever else the bundle holds and
    whatever follows it. *)
Theorem non_object_manifest_aborts pre post d (name : string) (j : pyjson) (c s : file) :
  _load_extensions pre = Ok d ->
  is_object j = false ->
  _load_extensions (pre ++ Dir name (Manifest j) c s :: post) = Raise AttributeError.
Proof.
  intros Hpre Hobj. rewrite (load_extensions_split pre _ d Hpre), scan_from_cons.
  now destruct j.
Qed.

Lemma non_object_manifest_aborts_witness :
  _load_extensions
    ([Dir "reader" NoManifest (Text "go()") Missing]
       ++ Dir "notes" (Manifest (JList [JStr "todo"])) Missing Missing
       :: [Dir "theme" NoManifest Missing (Text "a{}")])
  = Raise AttributeError.
Proof.
  apply (non_object_manifest_aborts
           [Dir "reader" NoManifest (Text "go()") Missing]
           [Dir "theme" NoManifest Missing (Text "a{}")]
           [(KStr "reader",
             {| manifest := JDict []; content_js := Some "go()"; styles_css := None |})]);
    reflexivity.
Defined.

(** X16. A manifest whose name cannot be a dict key (a list or an object)
    ends the scan with [TypeError] when the bundle has a script or a style
    file; a bundle with neither is passed over without error. *)
Theorem unhashable_name pre post d (name : string) (m : list (string * pyjson)) (c s : file) :
  _load_extensions pre = Ok d ->
  to_key (members_get m "name" (JStr name)) = Raise TypeError ->
  (has_key (read_artifact c) || has_key (read_artifact s) = true ->
   _load_extensions (pre ++ Dir name (Manifest (JDict m)) c s :: post) = Raise TypeError) /\
  _load_extensions (pre ++ Dir name (Manifest (JDict m)) Missing Missing :: post)
  = _load_extensions (pre ++ post).
Proof.
  intros Hpre Hkey. rewrite !(load_extensions_split pre _ d Hpre), !scan_from_cons. split.
  - intros Hhas. unfold load_bundle; simpl. rewrite Hhas, Hkey. reflexivity.
  - reflexivity.
Qed.

Lemma unhashable_name_witness :
  _load_extensions
    ([] ++ Dir "odd" (Manifest (JDict [("name", JList [JStr "a"; JStr "b"])]))
             (Text "go()") Missing :: [])
  = Raise TypeError.
Proof.
  pose proof (unhashable_name [] [] [] "odd" [("name", JList [JStr "a"; JStr "b"])]
                              (Text "go()") Missing eq_refl eq_refl) as [H _].
  apply H. reflexivity.
Defined.

Lemma dict_set_keys d k (e : entry) (x : pykey) :
  In x (map fst (dict_set d k e)) -> x = k \/ In x (map fst d).
Proof.
  induction d as [|[k' e'] d IH]; simpl.
  - intros [<-|[]]. now left.
  - destruct (decide (k' = k)) as [->|Hne]; simpl.
    + intros [<-|H]; auto.
    + intros [<-|H]; auto. destruct (IH H); auto.
Qed.

Lemma dict_set_nodup d k (e : entry) :
  List.NoDup (map fst d) -> List.NoDup (map fst (dict_set d k e)).
Proof.
  induction d as [|[k' e'] d IH]; simpl; intros Hnd.
  - constructor; [intros [] | constructor].
  - inversion Hnd as [|? ? Hnotin Hnd']; subst.
    destruct (decide (k' = k)) as [->|Hne]; simpl.
    + now constructor.
    + constructor; [|auto]. intros Hin.
      destruct (dict_set_keys _ _ _ _ Hin) as [->|H]; [congruence | contradiction].
Qed.

Lemma dict_set_length d k (e : entry) : length (dict_set d k e) <= S (length d).
Proof.
  induction d as [|[k' e'] d IH]; simpl; [lia|].
  destruct (decide (k' = k)); simpl; lia.
Qed.

Lemma scan_from_invariants listing d final :
  scan_from d listing = Ok final ->
  List.NoDup (map fst d) ->
  List.NoDup (map fst final) /\ length final <= length d + length listing.
Proof.
  revert d. induction listing as [|sub rest IH]; intros d; simpl.
  - intros [= <-] Hnd. split; [exact Hnd | lia].
  - destruct (load_bundle d sub) as [d1|x] eqn:E; simpl; [|discriminate].
    intros Hscan Hnd. apply load_bundle_stored in E.
    assert (Hd1 : List.NoDup (map fst d1) /\ length d1 <= S (length d)).
    { subst d1. destruct (stored sub) as [[k e]|].
      - split; [now apply dict_set_nodup | apply dict_set_length].
      - split; [exact Hnd | lia]. }
    destruct (IH d1 Hscan (proj1 Hd1)) as [Hfinal Hlen]. split; [exact Hfinal | lia].
Qed.

(** X17. The catalog of a scan has no key twice and no more entries than
    the directory has elements. *)
Theorem catalog_keys_distinct listing final :
  _load_extensions listing = Ok final ->
  List.NoDup (map fst final) /\ length final <= length listing.
Proof.
  intros Hscan. apply (scan_from_invariants listing [] final Hscan). constructor.
Qed.

Lemma catalog_keys_distinct_witness :
  let listing := [Dir "a" (Manifest (JDict [("name", JStr "Same")])) (Text "one()") Missing;
                  File "notes.txt";
                  Dir "b" (Manifest (JDict [("name", JStr "Same")])) Missing (Text "p{}")] in
  let final := [(KStr "Same", {| manifest := JDict [("name", JStr "Same")];
                                 content_js := None;
                                 styles_css := Some "p{}" |})] in
  List.NoDup (map fst final) /\ length final <= length listing.
Proof.
  cbv zeta.
  apply (catalog_keys_distinct
           [Dir "a" (Manifest (JDict [("name", JStr "Same")])) (Text "one()") Missing;
            File "notes.txt";
            Dir "b" (Manifest (JDict [("name", JStr "Same")])) Missing (Text "p{}")]).
  reflexivity.
Defined.

(** X18. When several bundles resolve to one name the last one scanned
    wins: under every key the catalog holds the entry of the last element
    of the listing stored under that key, and nothing under a key no
    element is stored under. *)
Theorem last_bundle_wins listing final k :
  _load_extensions listing = Ok final ->
  dict_get final k = last_stored k listing.
Proof.
  intros Hscan. rewrite (scan_from_last_stored listing [] final k Hscan).
  now destruct (last_stored k listing).
Qed.

Lemma last_bundle_wins_witness :
  let listing := [Dir "a" (Manifest (JDict [("name", JStr "Same")])) (Text "one()") Missing;
                  Dir "b" (Manifest (JDict [("name", JStr "Same")])) Missing (Text "p{}")] in
  dict_get [(KStr "Same", {| manifest := JDict [("name", JStr "Same")];
                             content_js := None;
                             styles_css := Some "p{}" |})] (KStr "Same")
  = last_stored (KStr "Same") listing.
Proof.
  cbv zeta.
  apply (last_bundle_wins
           [Dir "a" (Manifest (JDict [("name", JStr "Same")])) (Text "one()") Missing;
            Dir "b" (Manifest (JDict [("name", JStr "Same")])) Missing (Text "p{}")]).
  reflexivity.
Defined.

End ScanMore.

(** ** More on the injection pass *)

Section InjectionMore.

Implicit Types (exts : list (pykey * entry)) (k : pykey) (e : entry).

Lemma in_inject_css exts (call : string) :
  In call (inject_css exts) <->
  exists k e css, In (k, e) exts /\ e.(styles_css) = Some css /\
                  css <> EmptyString /\ call = style_script css.
Proof.
  induction exts as [|[k e] exts IH]; simpl.
  - split; [intros [] | intros (? & ? & ? & [] & _)].
  - split.
    + destruct (styles_css e) as [[|c css]|] eqn:E; simpl.
      * intros H. apply IH in H as (k' & e' & css' & Hin & H). exists k', e', css'. tauto.
      * intros [<-|H].
        -- exists k, e, (String c css). repeat split; try discriminate; auto.
        -- apply IH in H as (k' & e' & css' & Hin & H). exists k', e', css'. tauto.
      * intros H. apply IH in H as (k' & e' & css' & Hin & H). exists k', e', css'. tauto.
    + intros (k' & e' & css' & [Heq|Hin] & Hcss & Hne & ->).
      * injection Heq as <- <-. rewrite Hcss. destruct css'; [congruence | now left].
      * assert (In (style_script css') (inject_css exts)) by (apply IH; eauto 8).
        destruct (styles_css e) as [[|c css]|]; simpl; auto.
Qed.

Lemma in_inject_js exts (call : string) :
  In call (inject_js exts) <->
  exists k e js, In (k, e) exts /\ e.(content_js) = Some js /\
                 js <> EmptyString /\ call = js.
Proof.
  induction exts as [|[k e] exts IH]; simpl.
  - split; [intros [] | intros (? & ? & ? & [] & _)].
  - split.
    + destruct (content_js e) as [[|c js]|] eqn:E; simpl.
      * intros H. apply IH in H as (k' & e' & js' & Hin & H). exists k', e', js'. tauto.
      * intros [<-|H].
        -- exists k, e, (String c js). repeat split; try discriminate; auto.
        -- apply IH in H as (k' & e' & js' & Hin & H). exists k', e', js'. tauto.
      * intros H. apply IH in H as (k' & e' & js' & Hin & H). exists k', e', js'. tauto.
    + intros (k' & e' & js' & [Heq|Hin] & Hjs & Hne & ->).
      * injection Heq as <- <-. rewrite Hjs. destruct js'; [congruence | now left].
      * assert (In js' (inject_js exts)) by (apply IH; eauto 8).
        destruct (content_js e) as [[|c js]|]; simpl; auto.
Qed.

(** X19. The scripts given to a page are exactly the wrapped non-empty
    stylesheets and the non-empty content scripts of the catalog's
    entries: nothing else is run, and none of them is left out. *)
Theorem injected_calls exts (call : string) :
  In call (_inject_extensions exts) <->
  (exists k e css, In (k, e) exts /\ e.(styles_css) = Some css /\
                   css <> EmptyString /\ call = style_script css)
  \/
  (exists k e js, In (k, e) exts /\ e.(content_js) = Some js /\
                  js <> EmptyString /\ call = js).
Proof.
  unfold _inject_extensions. rewrite in_app_iff, in_inject_css, in_inject_js. tauto.
Qed.

Lemma str_forall_app (f : ascii -> bool) (a b : string) :
  str_forall f (a +:+ b) = str_forall f a && str_forall f b.
Proof.
  induction a as [|c a IH]; [reflexivity|].
  rewrite append_String. simpl. now rewrite IH, andb_assoc.
Qed.

Lemma repr_char_one_line (quote c : ascii) :
  quote = single_quote \/ quote = double_quote ->
  str_forall not_line_break (repr_char quote c) = true.
Proof. intros [-> | ->]; destruct c as [[] [] [] [] [] [] [] []]; reflexivity. Qed.

Lemma repr_body_one_line (quote : ascii) (s : string) :
  quote = single_quote \/ quote = double_quote ->
  str_forall not_line_break (repr_body quote s) = true.
Proof.
  intros Hq. induction s as [|c s IH]; [reflexivity|].
  simpl. now rewrite str_forall_app, repr_char_one_line, IH.
Qed.

Lemma str_repr_one_line (s : string) : str_forall not_line_break (str_repr s) = true.
Proof.
  unfold str_repr.
  destruct (str_in (String single_quote EmptyString) s
            && negb (str_in (String double_quote EmptyString) s)); simpl;
    rewrite str_forall_app, repr_body_one_line by auto; reflexivity.
Qed.

(** X20. Whatever the stylesheet contains, the script built around it is
    one line: it has no line feed and no carriage return, those of the
    CSS being written as escapes. *)
Theorem style_script_is_one_line (css : string) :
  str_forall not_line_break (style_script css) = true.
Proof.
  unfold style_script. rewrite !str_forall_app, str_repr_one_line. reflexivity.
Qed.

(** X21. The script built around a stylesheet assigns to the text content
    a literal which, read as a JavaScript string literal, denotes the
    stylesheet text itself, character for character. *)
Theorem style_script_assigns_css (css : string) :
  exists literal,
    style_script css =
      "(function(){var style=document.createElement('style');style.textContent="
      +:+ literal +:+ ";document.head.appendChild(style);})();"
    /\ js_string_value literal = Some css.
Proof.
  exists (str_repr css). split; [reflexivity | apply js_value_of_repr].
Qed.

End InjectionMore.

(** ** More on the address bar *)

Section AddressBarMore.

Lemma is_substring_app_r (p a b : string) : is_substring p a -> is_substring p (a +:+ b).
Proof.
  intros (x & y & ->). exists x, (y +:+ b). now rewrite !append_assoc.
Qed.

Lemma str_in_prefixed (p a b : string) :
  str_in p a = true -> str_in p (a +:+ b) = true.
Proof. rewrite !str_in_spec. apply is_substring_app_r. Qed.

(** X22. Whatever is typed, the URL given to the engine has a scheme
    separator: the home URL, an [https] URL, or the stripped input when
    it has one itself. *)
Theorem normalize_url_has_scheme (text : string) :
  exists url, normalize_url text = QUrl_ url /\ str_in "://" url = true.
Proof.
  unfold normalize_url. set (t := str_strip text).
  destruct t as [|c t'] eqn:E; [now eexists|].
  remember (String c t') as t0 eqn:Ht0. clear E Ht0 t.
  destruct (str_in "://" t0) eqn:Hsch, (str_in " " t0) eqn:Hsp, (str_in "." t0) eqn:Hdot;
    cbn [negb andb orb]; eexists; (split; [reflexivity|]);
    first [ exact Hsch
          | apply (str_in_prefixed "://" "https://"); reflexivity
          | apply (str_in_prefixed "://" "https://duckduckgo.com/?q="); reflexivity ].
Qed.

Lemma lstrip_app_space (ws s : string) :
  all_space ws = true -> str_lstrip (ws +:+ s) = str_lstrip s.
Proof.
  induction ws as [|c ws IH]; [reflexivity|].
  simpl all_space. rewrite andb_true_iff. intros [Hc Hws].
  rewrite append_String. simpl. rewrite Hc. auto.
Qed.

Lemma rstrip_all_space (ws : string) : all_space ws = true -> str_rstrip ws = EmptyString.
Proof.
  induction ws as [|c ws IH]; [reflexivity|].
  simpl. rewrite andb_true_iff. intros [Hc Hws]. now rewrite (IH Hws), Hc.
Qed.

Lemma rstrip_app_space (s ws : string) :
  all_space ws = true -> str_rstrip (s +:+ ws) = str_rstrip s.
Proof.
  intros Hws. induction s as [|c s IH].
  - rewrite append_Empty. now apply rstrip_all_space.
  - rewrite append_String. simpl. now rewrite IH.
Qed.

Lemma lstrip_cases (s : string) :
  str_lstrip s = EmptyString /\ all_space s = true
  \/ exists pre c rest, s = pre +:+ String c rest /\ all_space pre = true /\
                        is_space c = false /\ str_lstrip s = String c rest.
Proof.
  induction s as [|c s IH]; [now left|]. simpl.
  destruct (is_space c) eqn:Hc.
  - destruct IH as [[H1 H2]|(pre & c' & rest & -> & Hpre & Hc' & Hl)].
    + left. now rewrite H1, H2.
    + right. exists (String c pre), c', rest. repeat split; auto.
      simpl. now rewrite Hc, Hpre.
  - right. exists EmptyString, c, s. repeat split; auto.
Qed.

Lemma strip_app_space_r (s ws : string) :
  all_space ws = true -> str_strip (s +:+ ws) = str_strip s.
Proof.
  intros Hws. unfold str_strip.
  destruct (lstrip_cases s) as [[Hl Hall]|(pre & c & rest & -> & Hpre & Hc & Hl)].
  - rewrite Hl. simpl.
    assert (Hboth : all_space (s +:+ ws) = true).
    { clear Hl. induction s as [|a s IH]; [exact Hws|].
      simpl in Hall. apply andb_true_iff in Hall as [Ha Hs].
      rewrite append_String. simpl. now rewrite Ha, IH. }
    now rewrite (lstrip_all_space _ Hboth).
  - rewrite Hl, append_assoc, lstrip_app_space by exact Hpre.
    rewrite append_String. simpl str_lstrip at 1. rewrite Hc.
    rewrite <- append_String. now apply rstrip_app_space.
Qed.

(** X23. Whitespace around the input plays no role: the input with any
    whitespace put before and after it gives the same URL. *)
Theorem normalize_url_ignores_outer_space (before text after : string) :
  all_space before = true -> all_space after = true ->
  normalize_url (before +:+ text +:+ after) = normalize_url text.
Proof.
  intros Hb Ha. unfold normalize_url.
  assert (Hstrip : str_strip (before +:+ text +:+ after) = str_strip text).
  { unfold str_strip at 1. rewrite lstrip_app_space by exact Hb.
    fold (str_strip (text +:+ after)). now apply strip_app_space_r. }
  now rewrite Hstrip.
Qed.

Lemma normalize_url_ignores_outer_space_witness :
  normalize_url (String (ascii_of_N 9) " " +:+ "qt docs" +:+ String (ascii_of_N 10) EmptyString)
  = normalize_url "qt docs".
Proof.
  apply (normalize_url_ignores_outer_space
           (String (ascii_of_N 9) " ") "qt docs" (String (ascii_of_N 10) EmptyString));
    reflexivity.
Defined.

Lemma percent_char_safe (c : ascii) : str_forall url_safe (percent_bytes (utf8 c)) = true.
Proof. destruct c as [[] [] [] [] [] [] [] []]; reflexivity. Qed.

Lemma percent_encoding_safe (text : string) :
  str_forall url_safe (toPercentEncoding text) = true.
Proof.
  induction text as [|c text IH]; [reflexivity|].
  simpl. now rewrite str_forall_app, percent_char_safe, IH.
Qed.

(** X24. The query of a search URL is made of letters, digits, [-], [.],
    [_], [~] and [%] only: no space, [&], [#] or other character of the
    input reaches the URL as it is. *)
Theorem search_query_is_safe (text : string) :
  let t := str_strip text in
  t <> EmptyString -> str_in "://" t = false ->
  str_in " " t = true \/ str_in "." t = false ->
  exists query,
    normalize_url text = QUrl_ ("https://duckduckgo.com/?q=" +:+ query) /\
    str_forall url_safe query = true.
Proof.
  intros t Hne Hsch Hor. exists (toPercentEncoding t). split.
  - unfold normalize_url. fold t. destruct t as [|c t']; [congruence|].
    rewrite Hsch. destruct Hor as [-> | ->]; simpl; [reflexivity|].
    now rewrite andb_false_r, orb_true_r.
  - apply percent_encoding_safe.
Qed.

Lemma search_query_is_safe_witness :
  exists query,
    normalize_url "C++ & Qt #1" = QUrl_ ("https://duckduckgo.com/?q=" +:+ query) /\
    str_forall url_safe query = true.
Proof.
  apply (search_query_is_safe "C++ & Qt #1");
    [discriminate | reflexivity | left; reflexivity].
Defined.

End AddressBarMore.

(** ** The page-source dialog *)

Section ViewSource.

Lemma length_app_str (a b : string) :
  String.length (a +:+ b) = String.length a + String.length b.
Proof.
  induction a as [|c a IH]; [reflexivity|].
  rewrite append_String. simpl. now rewrite IH.
Qed.

Lemma str_take_length (n : nat) (s : string) :
  String.length (str_take n s) = Nat.min n (String.length s).
Proof.
  revert s. induction n as [|n IH]; intros [|c s]; simpl; auto.
Qed.

Lemma str_take_prefix (n : nat) (s : string) : exists rest, s = str_take n s +:+ rest.
Proof.
  revert s. induction n as [|n IH]; intros s.
  - now exists s.
  - destruct s as [|c s]; [now exists EmptyString|].
    destruct (IH s) as [rest Hrest]. exists rest.
    simpl. rewrite append_String. now rewrite <- Hrest.
Qed.

Lemma str_take_all (n : nat) (s : string) : String.length s <= n -> str_take n s = s.
Proof.
  revert s. induction n as [|n IH]; intros [|c s]; simpl; auto; [lia|].
  intros H. rewrite IH; [reflexivity | lia].
Qed.

(** X25. The text of the page-source dialog never has more than the limit
    of 20000 characters plus the 16 of the truncation mark. A page shorter
    than the limit is shown whole and unmarked; any other page is shown as
    its first 20000 characters followed by the mark, so that a page of
    exactly 20000 characters is shown whole and marked all the same. *)
Theorem show_html_text_bounded (html : string) :
  String.length (show_html_text html) <= SOURCE_LIMIT + 16 /\
  (String.length html < SOURCE_LIMIT -> show_html_text html = html) /\
  (SOURCE_LIMIT <= String.length html ->
   String.length (show_html_text html) = SOURCE_LIMIT + 16 /\
   exists rest, html = str_take SOURCE_LIMIT html +:+ rest /\
                show_html_text html = str_take SOURCE_LIMIT html +:+ truncated_mark) /\
  (String.length html = SOURCE_LIMIT -> show_html_text html = html +:+ truncated_mark).
Proof.
  unfold show_html_text.
  assert (Hmark : String.length truncated_mark = 16) by reflexivity.
  destruct (Nat.ltb_spec (String.length html) SOURCE_LIMIT) as [Hlt|Hge].
  - repeat split; intros; first [lia | reflexivity].
  - rewrite length_app_str, str_take_length, Hmark. repeat split; intros; try lia.
    + destruct (str_take_prefix SOURCE_LIMIT html) as [rest Hrest]. now exists rest.
    + now rewrite str_take_all by lia.
Qed.

End ViewSource.

(** ** Tabs and the session *)

Section TabsMore.

Context {V : Type} `{Engine V}.
Import Browser.

Lemma delete_length_ge {A : Type} (i : nat) (l : list A) :
  length l - 1 <= length (delete i l).
Proof.
  revert i. induction l as [|a l IH]; intros [|i]; simpl; try lia.
  specialize (IH i). lia.
Qed.

Lemma removeTab_length (index : Z) (ts : list V) :
  length ts - 1 <= length (removeTab index ts).
Proof.
  unfold removeTab.
  destruct ((0 <=? index)%Z && (index <? Z.of_nat (length ts))%Z); [|lia].
  apply delete_length_ge.
Qed.

Lemma removeTab_valid (i : nat) (ts : list V) :
  i < length ts -> removeTab (Z.of_nat i) ts = delete i ts.
Proof.
  intros Hi. unfold removeTab.
  replace ((0 <=? Z.of_nat i)%Z && (Z.of_nat i <? Z.of_nat (length ts))%Z) with true.
  - now rewrite Nat2Z.id.
  - symmetry. apply andb_true_iff. split; [apply Z.leb_le | apply Z.ltb_lt]; lia.
Qed.

Lemma close_tab_tabs (b : t V) (index : Z) :
  (close_tab b index).(tabs)
  = removeTab index (if Nat.leb (length b.(tabs)) 1
                     then b.(tabs) ++ [new_view HOME_URL] else b.(tabs)).
Proof. unfold close_tab. now destruct (Nat.leb (length (tabs b)) 1). Qed.

(** X26. Closing a tab never leaves a window that has tabs without one,
    whatever the index. Closing the only tab leaves one fresh home tab;
    with two tabs or more, closing the tab at a valid index removes that
    tab and keeps the others in order. *)
Theorem close_tab_keeps_a_tab (b : t V) (index : Z) :
  b.(tabs) <> [] ->
  (close_tab b index).(tabs) <> [] /\
  (forall v, b.(tabs) = [v] -> (close_tab b 0).(tabs) = [new_view HOME_URL]) /\
  (forall i, 2 <= length b.(tabs) -> i < length b.(tabs) ->
             (close_tab b (Z.of_nat i)).(tabs) = delete i b.(tabs)).
Proof.
  intros Hne. repeat split.
  - rewrite close_tab_tabs. intros Hnil.
    pose proof (removeTab_length index
                  (if Nat.leb (length b.(tabs)) 1
                   then b.(tabs) ++ [new_view HOME_URL] else b.(tabs))) as Hlen.
    rewrite Hnil in Hlen. simpl in Hlen.
    destruct (Nat.leb_spec (length (tabs b)) 1) as [Hle|Hgt].
    + rewrite length_app in Hlen. simpl in Hlen.
      destruct (tabs b); [congruence | simpl in Hlen; lia].
    + lia.
  - intros v Hv. rewrite close_tab_tabs, Hv. reflexivity.
  - intros i H2 Hi. rewrite close_tab_tabs.
    destruct (Nat.leb_spec (length (tabs b)) 1) as [Hle|Hgt]; [lia|].
    now apply removeTab_valid.
Qed.

End TabsMore.

Section SessionMore.

Context {V : Type} `{Engine V}.
Import Browser.

(** X30. The user-agent dialog: cancelling changes nothing; a blank text
    always clears the stored agent, so that the next window applies none;
    a non-empty text is stored only when the engine has taken it, and is
    then what the next window applies; when the engine refuses it,
    nothing changes and the failure is reported. *)
Theorem set_user_agent_outcome (b : t V) (text : string) :
  set_user_agent b text false = (b, None) /\
  (let b' := fst (set_user_agent b EmptyString true) in
   value_str b'.(window).(MainWindow.settings) "browser/user_agent" EmptyString = EmptyString /\
   @load_user_agent V _ b'.(window).(MainWindow.settings) = None) /\
  (text <> EmptyString -> sets_user_agent text = true ->
   let b' := fst (set_user_agent b text true) in
   b'.(user_agent) = Some text /\
   value_str b'.(window).(MainWindow.settings) "browser/user_agent" EmptyString = text /\
   @load_user_agent V _ b'.(window).(MainWindow.settings) = Some text) /\
  (text <> EmptyString -> sets_user_agent text = false ->
   set_user_agent b text true = (b, Some "Failed to set User-Agent (Qt limitation)")).
Proof.
  split; [reflexivity|]. split; [|split].
  - cbv zeta. unfold set_user_agent, load_user_agent.
    destruct (sets_user_agent EmptyString); simpl;
      unfold value_str, setValue; rewrite lookup_insert_eq; auto.
  - intros Hne Hok. cbv zeta. unfold set_user_agent, load_user_agent.
    destruct text as [|c text]; [congruence|]. rewrite Hok. simpl.
    unfold value_str, setValue. rewrite lookup_insert_eq. now rewrite Hok.
  - intros Hne Hrefused. unfold set_user_agent.
    destruct text as [|c text]; [congruence|]. now rewrite Hrefused.
Qed.

End SessionMore.

Section SessionWitnesses.

Import Browser.

Lemma close_tab_keeps_a_tab_witness :
  (close_tab two_tabs 5).(tabs) <> [] /\
  (close_tab two_tabs 0).(tabs) = ["https://example.com/"].
Proof.
  pose proof (@close_tab_keeps_a_tab string url_engine two_tabs 5) as H5.
  pose proof (@close_tab_keeps_a_tab string url_engine two_tabs 0) as H0.
  destruct H5 as (Hne & _); [discriminate|].
  destruct H0 as (_ & _ & Hdel); [discriminate|].
  split; [exact Hne|].
  apply (Hdel 0%nat); simpl; lia.
Defined.

End SessionWitnesses.
